(** * zim-library-manager: the download orchestration core

    A shallow embedding of [src/services/downloader.ts] and of the admission
    check of [src/services/disk.ts], with the [downloads] and [local_zims]
    tables of [src/db/schema.ts].

    Conventions of the embedding:
    - a JavaScript [number] holding a byte count, an identifier, a pid or a
      time stamp is a [Z]; where the source computes with numbers that a
      caller or a document chooses (the sum of the admission check, the
      priorities of a metalink) the result is rounded as IEEE 754 doubles
      are, see [to_number];
    - a nullable column is an [option];
    - a table is the list of its rows in rowid order, so that
      [select ... limit 1] is the first matching row;
    - the [Map<number, ChildProcess>] named [activeProcesses] is a [gmap];
    - an [async] function is a computation in the monad [M], which threads
      the mutable world and records a thrown [Error] by its message; every
      exported operation and every process event handler runs as one step
      (the interleaving of handlers at [await] points is not modelled, and
      the time stamp [lastUpdate] of the progress sampler is given with
      its event);
    - what the program reads from outside (catalog, setting, [df], HTTP,
      [stat], clock, the pid given by [spawn], [path.join]) is the record
      [Env]. *)

From stdpp Require Import gmap strings list fin_maps pretty sorting.
From Stdlib Require Import Ascii QArith.

Local Open Scope Z_scope.

(** ** Rows of the store ([src/db/schema.ts]) *)

Inductive Status := queued | downloading | paused | completed | failed.

#[global] Instance Status_eq_dec : EqDecision Status.
Proof. solve_decision. Defined.

Record Download := mkDownload {
  dl_id : Z;
  dl_bookId : option string;
  dl_status : Status;
  dl_filePath : option string;
  dl_bytesDownloaded : option Z;
  dl_totalBytes : option Z;
  dl_pid : option Z;
  dl_startedAt : option Z;
  dl_completedAt : option Z;
  dl_error : option string;
}.

Record LocalZim := mkLocalZim {
  lz_id : Z;
  lz_filePath : string;
  lz_fileName : string;
  lz_fileSize : option Z;
  lz_bookId : option string;
  lz_catalogDate : option string;
  lz_hasUpdate : option bool;
  lz_discoveredAt : option Z;
  lz_lastChecked : option Z;
}.

(** The columns of [catalog_books] that the downloader reads. *)
Record CatalogBook := mkBook {
  book_id : string;
  book_date : option string;
  book_size : option Z;      (* size in KB *)
  book_url : option string;
}.

(** ** The metalink document as [fast-xml-parser] delivers it *)

(** An element of the array [file.url]: a bare string, or an object with
    ["#text"] and the optional attribute ["@_priority"] (attribute values
    stay strings). *)
Inductive UrlEntry :=
| UrlText (u : string)
| UrlNode (text : string) (priority : option string).

(** The three shapes of [file.url] that [resolveMeta4Url] tells apart. *)
Inductive UrlField :=
| UrlString (u : string)
| UrlArray (us : list UrlEntry)
| UrlObject (text : string) (priority : option string).

Record Meta4File := mkMeta4 {
  file_name : string;        (* file["@_name"] *)
  file_url : UrlField;
}.

(** ** Processes *)

Inductive Signal := SIGSTOP | SIGCONT | SIGTERM.

Record BookInfo := mkBookInfo {
  bi_bookId : string;
  bi_catalogDate : option string;
  bi_fileName : string;
}.

(** A [ChildProcess] returned by [spawn], together with what the closures
    of its [close] and [error] handlers captured in [spawnWget].
    [cp_serial] tells two processes apart; [cp_pid] is [None] when the
    spawn failed ([wget.pid] undefined). *)
Record ChildProcess := mkChild {
  cp_serial : nat;
  cp_pid : option Z;
  cp_downloadId : Z;
  cp_url : string;
  cp_outputPath : string;
  cp_totalBytes : Z;
  cp_bookInfo : BookInfo;
}.

(** ** The world *)

Record World := mkWorld {
  downloads : list Download;
  downloads_seq : Z;                       (* last AUTOINCREMENT id used *)
  localZims : list LocalZim;
  localZims_seq : Z;
  activeProcesses : gmap Z ChildProcess;
  spawned : list ChildProcess;             (* every process spawned so far *)
  signals : list (nat * Signal);           (* every kill(sig), by cp_serial *)
}.

Inductive Result (A : Type) :=
| Ok (a : A)
| Throw (msg : string).
Arguments Ok {A} a.
Arguments Throw {A} msg.

Inductive FetchResponse :=
| FetchOk (doc : Meta4File)
| FetchNotOk (statusText : string)
| FetchRejected.             (* the network request itself failed *)

Record Env := mkEnv {
  catalogBooks : list CatalogBook;
  setting_downloadFolder : string;
  df_available : string → Result Z;        (* getDiskSpace(path).available *)
  fetch_meta4 : string → FetchResponse;
  stat_size : string → option Z;           (* None: stat rejects *)
  now : Z;
  spawn_pid : option Z;
  path_join : string → string → string;
}.

(** ** The monad of the asynchronous operations *)

Definition M (A : Type) : Type := World → World * Result A.

#[global] Instance M_ret : MRet M := λ A a w, (w, Ok a).
#[global] Instance M_bind : MBind M := λ A B f c w,
  match c w with
  | (w', Ok a) => f a w'
  | (w', Throw msg) => (w', Throw msg)
  end.

Definition throw {A} (msg : string) : M A := λ w, (w, Throw msg).
Definition get_world : M World := λ w, (w, Ok w).
Definition modify (f : World → World) : M unit := λ w, (f w, Ok tt).
Definition lift_result {A} (r : Result A) : M A := λ w, (w, r).

(** ** Numbers

    A JavaScript [number] is an IEEE 754 double. Every integer of
    magnitude up to 2^53 is a double; beyond, the doubles are the integers
    with a significand of 53 bits, and the result of an operation is the
    double nearest to the exact result, the one with an even significand
    when two are equally near, and an infinity from 2^1024 on. *)

(** The double nearest to the integer [z], for [0 <= z]. *)
Definition round_double_pos (z : Z) : Z :=
  let e := Z.log2 z - 52 in
  if e <=? 0 then z
  else
    let q := z / 2 ^ e in
    let r := z mod 2 ^ e in
    let half := 2 ^ (e - 1) in
    if (half <? r) || ((r =? half) && Z.odd q)
    then (q + 1) * 2 ^ e
    else q * 2 ^ e.

Definition round_double (z : Z) : Z :=
  if z <? 0 then - round_double_pos (- z) else round_double_pos z.

(** A [number] whose value is an integer, an infinity or NaN. *)
Inductive JsInt := JInt (z : Z) | JPosInf | JNegInf | JNaN.

(** The [number] that an exact integer result becomes. *)
Definition to_number (z : Z) : JsInt :=
  let r := round_double z in
  if 2 ^ 1024 <=? r then JPosInf
  else if r <=? - 2 ^ 1024 then JNegInf
  else JInt r.

(** [a - b] *)
Definition js_minus (a b : JsInt) : JsInt :=
  match a, b with
  | JInt x, JInt y => to_number (x - y)
  | JNaN, _ | _, JNaN => JNaN
  | JPosInf, JPosInf | JNegInf, JNegInf => JNaN
  | JPosInf, _ | _, JNegInf => JPosInf
  | JNegInf, _ | _, JPosInf => JNegInf
  end.

(** ** [src/services/disk.ts] *)

(** [available >= required + buffer] on the numbers [available] and
    [required]. *)
Definition hasEnoughSpace (available required : Z) : bool :=
  let buffer := 1024 * 1024 * 1024 in
  match to_number (required + buffer) with
  | JInt sum => available >=? sum
  | JNegInf => true
  | JPosInf | JNaN => false
  end.

(** ** [parseInt(s, 10)] and [Array.prototype.sort] *)

Definition is_white (a : ascii) : bool :=
  match a with
  | "009" | "010" | "011" | "012" | "013" | " " => true
  | _ => false
  end%char.

Definition is_digit (a : ascii) : bool :=
  ((48 <=? nat_of_ascii a) && (nat_of_ascii a <=? 57))%nat.

Definition digit_value (a : ascii) : Z := Z.of_nat (nat_of_ascii a) - 48.

(** The third byte of the white space of three bytes that starts with
    the bytes 226 and 128: U+2000 to U+200A, U+2028, U+2029 and U+202F. *)
Definition is_white_e2_80 (a : ascii) : bool :=
  let n := nat_of_ascii a in
  ((128 <=? n) && (n <=? 138) || (n =? 168) || (n =? 169) || (n =? 175))%nat.

(** The leading white space and line terminators are dropped. A string is
    the sequence of the bytes of its UTF-8 encoding, so that the white
    space outside ASCII takes two or three bytes. *)
Fixpoint skip_white (s : string) : string :=
  match s with
  | String a s1 =>
      if is_white a then skip_white s1
      else
        match a, s1 with
        | "194"%char, String "160"%char s2 => skip_white s2          (* U+00A0 *)
        | "225"%char, String "154"%char (String "128"%char s3) =>
            skip_white s3                                            (* U+1680 *)
        | "226"%char, String "128"%char (String c s3) =>
            if is_white_e2_80 c then skip_white s3 else s
        | "226"%char, String "129"%char (String "159"%char s3) =>
            skip_white s3                                            (* U+205F *)
        | "227"%char, String "128"%char (String "128"%char s3) =>
            skip_white s3                                            (* U+3000 *)
        | "239"%char, String "187"%char (String "191"%char s3) =>
            skip_white s3                                            (* U+FEFF *)
        | _, _ => s
        end
  | EmptyString => s
  end.

(** The longest prefix of decimal digits, [None] when it is empty. *)
Fixpoint parse_digits (acc : option Z) (s : string) : option Z :=
  match s with
  | String a s' =>
      if is_digit a
      then parse_digits (Some (10 * default 0 acc + digit_value a)) s'
      else acc
  | EmptyString => acc
  end.

(** The [number] of a sign and the digits that follow it, NaN without a
    digit. *)
Definition signed (sign : Z) (digits : option Z) : JsInt :=
  match digits with
  | Some n => to_number (sign * n)
  | None => JNaN
  end.

(** [parseInt(s, 10)] *)
Definition parseInt (s : string) : JsInt :=
  match skip_white s with
  | String "-"%char s' => signed (-1) (parse_digits None s')
  | String "+"%char s' => signed 1 (parse_digits None s')
  | s' => signed 1 (parse_digits None s')
  end.

Section array_sort.
Context {A : Type}.
Variable comparefn : A → A → JsInt.

(** [x] may stay before [y]: the comparator is not positive (a NaN
    result counts as [+0]). *)
Definition sort_keeps (x y : A) : bool :=
  match comparefn x y with
  | JInt v => bool_decide (v ≤ 0)
  | JNegInf | JNaN => true
  | JPosInf => false
  end.

Fixpoint sort_insert (x : A) (l : list A) : list A :=
  match l with
  | [] => [x]
  | y :: l' => if sort_keeps x y then x :: l else y :: sort_insert x l'
  end.

(** The stable sort of ECMAScript 2019, as a stable insertion sort. Every
    stable sort gives this result when the comparator is a consistent
    ordering. *)
Fixpoint array_sort (l : list A) : list A :=
  match l with
  | [] => []
  | x :: l' => sort_insert x (array_sort l')
  end.
End array_sort.

(** ** [src/services/downloader.ts]: the mirror resolver *)

Record Candidate := mkCandidate {
  c_url : string;
  c_priority : JsInt;
}.

(** The mapping function of [file.url.map(...)]. *)
Definition to_candidate (u : UrlEntry) : Candidate :=
  match u with
  | UrlText s => {| c_url := s; c_priority := JInt 99 |}
  | UrlNode text prio =>
      {| c_url := text; c_priority := parseInt (default "99"%string prio) |}
  end.

(** [(a, b) => a.priority - b.priority] *)
Definition by_priority (a b : Candidate) : JsInt :=
  js_minus (c_priority a) (c_priority b).

(** The selection of [downloadUrl] from [file.url]. [urls[0].url] on an
    empty array is a [TypeError]. *)
Definition select_url (u : UrlField) : Result string :=
  match u with
  | UrlString s => Ok s
  | UrlArray us =>
      match array_sort by_priority (to_candidate <$> us) with
      | c :: _ => Ok (c_url c)
      | [] => Throw "Cannot read properties of undefined (reading 'url')"
      end
  | UrlObject text _ => Ok text
  end.

(** The priority of a candidate whose priority is a finite number. *)
Definition priority_value (c : Candidate) : Z :=
  match c_priority c with
  | JInt z => z
  | _ => 0
  end.

(** The candidate's priority is a finite number: neither NaN (an
    attribute that does not start with a decimal integer) nor an infinity
    (one of more than 308 digits). *)
Definition numeric (c : Candidate) : Prop := ∃ z, c_priority c = JInt z.

(** The entry carries no ["@_priority"] attribute. *)
Definition lacks_priority (u : UrlEntry) : bool :=
  match u with
  | UrlText _ | UrlNode _ None => true
  | UrlNode _ (Some _) => false
  end.

(** ** Queries and updates on the tables *)

Definition has_id (i : Z) (d : Download) : bool := bool_decide (dl_id d = i).

Definition has_bookId (b : string) (d : Download) : bool :=
  bool_decide (dl_bookId d = Some b).

(** [update(t).set(f).where(p)] *)
Definition update_where {A} (p : A → bool) (f : A → A) (rows : list A) : list A :=
  (λ r, if p r then f r else r) <$> rows.

(** The rowid that AUTOINCREMENT gives the next inserted row. *)
Definition next_rowid (seq : Z) (ids : list Z) : Z :=
  Z.max seq (foldr Z.max 0 ids) + 1.

Definition with_downloads (f : list Download → list Download) (w : World) : World :=
  mkWorld (f (downloads w)) (downloads_seq w) (localZims w) (localZims_seq w)
          (activeProcesses w) (spawned w) (signals w).

Definition with_localZims (f : list LocalZim → list LocalZim) (w : World) : World :=
  mkWorld (downloads w) (downloads_seq w) (f (localZims w)) (localZims_seq w)
          (activeProcesses w) (spawned w) (signals w).

Definition with_activeProcesses
    (f : gmap Z ChildProcess → gmap Z ChildProcess) (w : World) : World :=
  mkWorld (downloads w) (downloads_seq w) (localZims w) (localZims_seq w)
          (f (activeProcesses w)) (spawned w) (signals w).

(** [select().from(downloads).where(p).limit(1)], as its first row if any. *)
Definition select_download (p : Download → bool) : M (option Download) :=
  λ w, (w, Ok (List.find p (downloads w))).

Definition update_downloads (p : Download → bool) (f : Download → Download) : M unit :=
  modify (with_downloads (update_where p f)).

(** [insert(downloads).values(v).returning()]: [v] is told its rowid. *)
Definition insert_download (v : Z → Download) : M Download :=
  λ w, let i := next_rowid (downloads_seq w) (dl_id <$> downloads w) in
       (mkWorld (downloads w ++ [v i]) i (localZims w) (localZims_seq w)
                (activeProcesses w) (spawned w) (signals w),
        Ok (v i)).

Definition delete_downloads (p : Download → bool) : M unit :=
  modify (with_downloads (List.filter (λ d, negb (p d)))).

Definition insert_localZim (v : Z → LocalZim) : M unit :=
  λ w, let i := next_rowid (localZims_seq w) (lz_id <$> localZims w) in
       (mkWorld (downloads w) (downloads_seq w) (localZims w ++ [v i]) i
                (activeProcesses w) (spawned w) (signals w),
        Ok tt).

(** [process.kill(sig)] *)
Definition kill (p : ChildProcess) (sig : Signal) : M unit :=
  modify (λ w, mkWorld (downloads w) (downloads_seq w) (localZims w)
                 (localZims_seq w) (activeProcesses w) (spawned w)
                 (signals w ++ [(cp_serial p, sig)])).

(** The fields written by the [set({...})] of each update. *)

Definition set_downloading (t : Z) (d : Download) : Download :=
  mkDownload (dl_id d) (dl_bookId d) downloading (dl_filePath d)
    (dl_bytesDownloaded d) (dl_totalBytes d) (dl_pid d) (Some t)
    (dl_completedAt d) None.

Definition set_status (s : Status) (d : Download) : Download :=
  mkDownload (dl_id d) (dl_bookId d) s (dl_filePath d)
    (dl_bytesDownloaded d) (dl_totalBytes d) (dl_pid d) (dl_startedAt d)
    (dl_completedAt d) (dl_error d).

Definition set_pid (p : Z) (d : Download) : Download :=
  mkDownload (dl_id d) (dl_bookId d) (dl_status d) (dl_filePath d)
    (dl_bytesDownloaded d) (dl_totalBytes d) (Some p) (dl_startedAt d)
    (dl_completedAt d) (dl_error d).

Definition set_completed (bytes t : Z) (d : Download) : Download :=
  mkDownload (dl_id d) (dl_bookId d) completed (dl_filePath d)
    (Some bytes) (dl_totalBytes d) None (dl_startedAt d)
    (Some t) (dl_error d).

Definition set_failed (msg : string) (d : Download) : Download :=
  mkDownload (dl_id d) (dl_bookId d) failed (dl_filePath d)
    (dl_bytesDownloaded d) (dl_totalBytes d) None (dl_startedAt d)
    (dl_completedAt d) (Some msg).

Definition set_bytesDownloaded (bytes : Z) (d : Download) : Download :=
  mkDownload (dl_id d) (dl_bookId d) (dl_status d) (dl_filePath d)
    (Some bytes) (dl_totalBytes d) (dl_pid d) (dl_startedAt d)
    (dl_completedAt d) (dl_error d).

Definition set_scanned (size : option Z) (info : BookInfo) (t : Z) (z : LocalZim) : LocalZim :=
  mkLocalZim (lz_id z) (lz_filePath z) (lz_fileName z) size
    (Some (bi_bookId info)) (bi_catalogDate info) (Some false)
    (lz_discoveredAt z) (Some t).

(** ** JavaScript numbers that need not be integers *)

Inductive JsNumber := Finite (q : Q) | PosInfinity | NegInfinity | NaN.

(** [a / b] on integers: the real quotient, and IEEE's answers for a zero
    divisor. *)
Definition js_div (a b : Z) : JsNumber :=
  if b =? 0
  then (if a =? 0 then NaN else if 0 <? a then PosInfinity else NegInfinity)
  else Finite (inject_Z a / inject_Z b).

Definition js_times (x : JsNumber) (k : Z) : JsNumber :=
  match x with
  | Finite q => Finite (q * inject_Z k)
  | PosInfinity => if k =? 0 then NaN else if 0 <? k then PosInfinity else NegInfinity
  | NegInfinity => if k =? 0 then NaN else if 0 <? k then NegInfinity else PosInfinity
  | NaN => NaN
  end.

Record DownloadProgress := mkProgress {
  dp_id : Z;
  dp_bookId : string;
  dp_status : Status;
  dp_bytesDownloaded : Z;
  dp_totalBytes : Z;
  dp_percentage : JsNumber;
  dp_filePath : string;
  dp_error : option string;
}.

(** [`${code}`] for the exit code of the [close] event ([null] when the
    process was killed by a signal). *)
Definition show_code (code : option Z) : string :=
  match code with
  | Some c => pretty c
  | None => "null"
  end.

(** A string is truthy when it is neither [null] nor empty. *)
Definition truthy (s : option string) : bool :=
  match s with
  | None | Some EmptyString => false
  | Some _ => true
  end.

(** ** [src/services/downloader.ts]: the operations *)

Section downloader.
Variable E : Env.

Definition getBookById (bookId : string) : option CatalogBook :=
  List.find (λ b, bool_decide (book_id b = bookId)) (catalogBooks E).

Definition getDiskSpace (path : string) : M Z := lift_result (df_available E path).

Definition resolveMeta4Url (meta4Url : string) : M (string * string) :=
  match fetch_meta4 E meta4Url with
  | FetchRejected => throw "fetch failed"
  | FetchNotOk statusText => throw ("Failed to fetch meta4: " +:+ statusText)
  | FetchOk doc =>
      downloadUrl ← lift_result (select_url (file_url doc));
      mret (downloadUrl, file_name doc)
  end.

(** [spawnWget] up to the point where it attaches the handlers of the
    process. With [wget.pid] undefined, [set({ pid: undefined })] has no
    column to write and drizzle throws [No values to set]: the process is
    registered by then, and the lines that attach the handlers of its
    [data], [close] and [error] events are not reached. *)
Definition spawnWget (downloadId : Z) (url outputPath : string)
    (totalBytes : Z) (bookInfo : BookInfo) : M unit :=
  λ w,
    let wget := mkChild (length (spawned w)) (spawn_pid E) downloadId url
                        outputPath totalBytes bookInfo in
    (* activeProcesses.set(downloadId, wget) *)
    let w1 := mkWorld (downloads w) (downloads_seq w) (localZims w)
                (localZims_seq w) (<[downloadId := wget]> (activeProcesses w))
                (spawned w ++ [wget]) (signals w) in
    match cp_pid wget with
    | Some p =>
        (with_downloads (update_where (has_id downloadId) (set_pid p)) w1, Ok tt)
    | None => (w1, Throw "No values to set")
    end.

Definition startDownload (bookId : string) : M Download :=
  match getBookById bookId with
  | None => throw ("Book not found: " +:+ bookId)
  | Some book =>
    match book_url book with
    | None | Some EmptyString => throw ("Book has no download URL: " +:+ bookId)
    | Some meta4Url =>
      let downloadFolder := setting_downloadFolder E in
      let requiredBytes := default 0 (book_size book) * 1024 in
      available ← getDiskSpace downloadFolder;
      if negb (hasEnoughSpace available requiredBytes)
      then throw ("Not enough disk space. Required: " +:+ pretty requiredBytes
                  +:+ ", Available: " +:+ pretty available)
      else
        '(downloadUrl, fileName) ← resolveMeta4Url meta4Url;
        let filePath := path_join E downloadFolder fileName in
        existing ← select_download (has_bookId bookId);
        if bool_decide (dl_status <$> existing = Some downloading)
        then throw ("Download already in progress for: " +:+ bookId)
        else
          downloadRecord ←
            match existing with
            | Some e =>
                update_downloads (has_id (dl_id e)) (set_downloading (now E));;
                r ← select_download (has_id (dl_id e));
                match r with
                | Some d => mret d
                | None => throw "Cannot read properties of undefined (reading 'id')"
                end
            | None =>
                insert_download (λ i,
                  mkDownload i (Some bookId) downloading (Some filePath)
                    (Some 0) (Some requiredBytes) None (Some (now E)) None None)
            end;
          spawnWget (dl_id downloadRecord) downloadUrl filePath requiredBytes
            (mkBookInfo (book_id book) (book_date book) fileName);;
          mret downloadRecord
    end
  end.

(** The handler of a [data] event on the error stream of [wget], with
    [elapsed = Date.now() - lastUpdate]: at most one sample every 500 ms,
    and a failing [stat] is ignored. *)
Definition on_data (wget : ChildProcess) (elapsed : Z) : M unit :=
  if 500 <? elapsed
  then
    match stat_size E (cp_outputPath wget) with
    | Some size =>
        update_downloads (has_id (cp_downloadId wget)) (set_bytesDownloaded size)
    | None => mret tt
    end
  else mret tt.

(** The handler of the [close] event of the process [wget], with the exit
    code [code]. *)
Definition on_close (wget : ChildProcess) (code : option Z) : M unit :=
  let downloadId := cp_downloadId wget in
  let outputPath := cp_outputPath wget in
  let bookInfo := cp_bookInfo wget in
  modify (with_activeProcesses (delete downloadId));;
  if bool_decide (code = Some 0)
  then
    let stats := stat_size E outputPath in
    update_downloads (has_id downloadId)
      (set_completed (default (cp_totalBytes wget) stats) (now E));;
    w ← get_world;
    match List.find (λ z, bool_decide (lz_filePath z = outputPath)) (localZims w) with
    | Some z =>
        modify (with_localZims
          (update_where (λ r, bool_decide (lz_id r = lz_id z))
                        (set_scanned stats bookInfo (now E))))
    | None =>
        insert_localZim (λ i,
          mkLocalZim i outputPath (bi_fileName bookInfo) stats
            (Some (bi_bookId bookInfo)) (bi_catalogDate bookInfo) (Some false)
            (Some (now E)) (Some (now E)))
    end
  else
    download ← select_download (has_id downloadId);
    if bool_decide (dl_status <$> download ≠ Some paused)
    then update_downloads (has_id downloadId)
           (set_failed ("wget exited with code " +:+ show_code code))
    else mret tt.

(** The handler of the [error] event, with [err.message]. *)
Definition on_error (wget : ChildProcess) (message : string) : M unit :=
  let downloadId := cp_downloadId wget in
  modify (with_activeProcesses (delete downloadId));;
  update_downloads (has_id downloadId) (set_failed message).

(** The handlers of [wget] are attached: [spawnWget] got past the update
    of the pid. *)
Definition listening (wget : ChildProcess) : bool :=
  bool_decide (is_Some (cp_pid wget)).

(** The [error] event of [wget]: its handler runs when it is attached; an
    [error] event without a listener is thrown by the emitter and reaches
    no code of the manager. *)
Definition emit_error (wget : ChildProcess) (message : string) : M unit :=
  if listening wget then on_error wget message else throw message.

(** [process && process.pid] *)
Definition live (process : option ChildProcess) : option ChildProcess :=
  match process with
  | Some p =>
      match cp_pid p with
      | Some n => if n =? 0 then None else Some p
      | None => None
      end
  | None => None
  end.

Definition pauseDownload (downloadId : Z) : M unit :=
  w ← get_world;
  match live (activeProcesses w !! downloadId) with
  | Some process =>
      kill process SIGSTOP;;
      update_downloads (has_id downloadId) (set_status paused)
  | None => mret tt
  end.

Definition resumeDownload (downloadId : Z) : M unit :=
  download ← select_download (has_id downloadId);
  match download with
  | None => throw ("Download not found: " +:+ pretty downloadId)
  | Some d =>
      w ← get_world;
      match live (activeProcesses w !! downloadId) with
      | Some process =>
          kill process SIGCONT;;
          update_downloads (has_id downloadId) (set_status downloading)
      | None =>
          if truthy (dl_bookId d)
          then startDownload (default EmptyString (dl_bookId d));; mret tt
          else mret tt
      end
  end.

Definition cancelDownload (downloadId : Z) : M unit :=
  w ← get_world;
  match activeProcesses w !! downloadId with
  | Some process =>
      kill process SIGTERM;;
      modify (with_activeProcesses (delete downloadId))
  | None => mret tt
  end;;
  update_downloads (has_id downloadId) (set_failed "Cancelled by user").

Definition getDownloadProgress (downloadId : Z) : M (option DownloadProgress) :=
  download ← select_download (has_id downloadId);
  match download with
  | None => mret None
  | Some d =>
      let bytesDownloaded :=
        if bool_decide (dl_status d = downloading) && truthy (dl_filePath d)
        then default (default 0 (dl_bytesDownloaded d))
                     (stat_size E (default EmptyString (dl_filePath d)))
        else default 0 (dl_bytesDownloaded d) in
      let totalBytes := default 0 (dl_totalBytes d) in
      let percentage :=
        if 0 <? totalBytes
        then js_times (js_div bytesDownloaded totalBytes) 100
        else Finite 0 in
      mret (Some (mkProgress (dl_id d) (default EmptyString (dl_bookId d))
                    (dl_status d) bytesDownloaded totalBytes percentage
                    (default EmptyString (dl_filePath d)) (dl_error d)))
  end.

Definition deleteDownload (downloadId : Z) : M unit :=
  cancelDownload downloadId;;
  delete_downloads (has_id downloadId).

End downloader.

(** ** Conditions under which [startDownload] reaches the store *)

(** The checks that [startDownload] makes before it looks for a row all
    pass: the book [book] is in the catalog with a source URL, the disk has
    room for it, and its metalink document [doc] yields [downloadUrl]. *)
Definition preflight (E : Env) (bookId : string) (book : CatalogBook)
    (doc : Meta4File) (downloadUrl : string) : Prop :=
  getBookById E bookId = Some book
  ∧ truthy (book_url book) = true
  ∧ (∃ available,
       df_available E (setting_downloadFolder E) = Ok available
       ∧ hasEnoughSpace available (default 0 (book_size book) * 1024) = true)
  ∧ fetch_meta4 E (default EmptyString (book_url book)) = FetchOk doc
  ∧ select_url (file_url doc) = Ok downloadUrl.

(** The world in which [startDownload] leaves the process it spawns for
    the row [d], from the world [w] in which the row was written. *)
Definition started (E : Env) (book : CatalogBook) (doc : Meta4File)
    (downloadUrl : string) (d : Download) (w : World) : World :=
  (spawnWget E (dl_id d) downloadUrl
     (path_join E (setting_downloadFolder E) (file_name doc))
     (default 0 (book_size book) * 1024)
     (mkBookInfo (book_id book) (book_date book) (file_name doc)) w).1.
Arguments started : simpl never.

(** What [startDownload] answers once the row [d] is written and the
    process spawned: the row, unless the spawn gave no pid. *)
Definition spawn_outcome (E : Env) (d : Download) : Result Download :=
  match spawn_pid E with
  | Some _ => Ok d
  | None => Throw "No values to set"
  end.

(** The row that [startDownload] inserts for a book without a row. *)
Definition fresh_row (E : Env) (bookId : string) (book : CatalogBook)
    (doc : Meta4File) (i : Z) : Download :=
  mkDownload i (Some bookId) downloading
    (Some (path_join E (setting_downloadFolder E) (file_name doc)))
    (Some 0) (Some (default 0 (book_size book) * 1024)) None
    (Some (now E)) None None.

(** ** Active transfers, and the events that drive the store *)

(** A transfer for [bookId] is active in the sense of the specification: a
    row of the book is [downloading], or a process is registered for it. *)
Definition active_transfer (w : World) (bookId : string) : bool :=
  existsb (λ d, has_bookId bookId d
                && (bool_decide (dl_status d = downloading)
                    || bool_decide (is_Some (activeProcesses w !! dl_id d))))
          (downloads w).

(** No two rows of the store belong to the same book. *)
Definition unique_books (w : World) : Prop :=
  NoDup (omap dl_bookId (downloads w)).

(** What can happen to the manager: a call of one of its operations, or an
    event of a process it spawned. The events are taken for every process,
    also for one whose handlers were never attached, so that what holds of
    all sequences of events holds of those the manager can meet. *)
Inductive Event :=
| Start (bookId : string)
| Pause (downloadId : Z)
| Resume (downloadId : Z)
| Cancel (downloadId : Z)
| Delete (downloadId : Z)
| Progress (downloadId : Z)
| Data (wget : ChildProcess) (elapsed : Z)
| Close (wget : ChildProcess) (code : option Z)
| Error (wget : ChildProcess) (message : string).

(** The world after the event, whether the operation returned or threw.
    Each event meets its own environment. *)
Definition step (w : World) (ev : Env * Event) : World :=
  let E := ev.1 in
  match ev.2 with
  | Start bookId => (startDownload E bookId w).1
  | Pause downloadId => (pauseDownload downloadId w).1
  | Resume downloadId => (resumeDownload E downloadId w).1
  | Cancel downloadId => (cancelDownload downloadId w).1
  | Delete downloadId => (deleteDownload downloadId w).1
  | Progress downloadId => (getDownloadProgress E downloadId w).1
  | Data wget elapsed => (on_data E wget elapsed w).1
  | Close wget code => (on_close E wget code w).1
  | Error wget message => (on_error wget message w).1
  end.

Definition run_events (evs : list (Env * Event)) (w : World) : World :=
  foldl step w evs.

(** ** Concrete worlds used to exercise the operations *)

Module Scenario.

Definition join (dir name : string) : string := dir +:+ "/" +:+ name.

Definition mirrors : UrlField :=
  UrlArray [UrlNode "http://mirror-c/wiki.zim" (Some "3");
            UrlNode "http://mirror-a/wiki.zim" (Some "1");
            UrlNode "http://mirror-b/wiki.zim" (Some "2")].

Definition wiki : CatalogBook :=
  mkBook "wiki" (Some "2024-01") (Some 976563) (Some "http://cat/wiki.meta4").

(** A book whose size the catalog does not know. *)
Definition gutenberg : CatalogBook :=
  mkBook "gutenberg" None None (Some "http://cat/gutenberg.meta4").

(** A second catalog entry whose metalink names the same file as [wiki]. *)
Definition wiki_mini : CatalogBook :=
  mkBook "wiki_mini" (Some "2024-01") (Some 10) (Some "http://cat/wiki_mini.meta4").

Definition fetch (url : string) : FetchResponse :=
  if bool_decide (url = "http://cat/wiki.meta4") then
    FetchOk (mkMeta4 "wiki.zim" mirrors)
  else if bool_decide (url = "http://cat/wiki_mini.meta4") then
    FetchOk (mkMeta4 "wiki.zim" (UrlString "http://mirror-a/wiki_mini.zim"))
  else if bool_decide (url = "http://cat/gutenberg.meta4") then
    FetchOk (mkMeta4 "gutenberg.zim" (UrlObject "http://mirror-a/gutenberg.zim" None))
  else FetchNotOk "Not Found".

Definition env (available : Z) : Env :=
  mkEnv [wiki; gutenberg; wiki_mini] "/zim" (λ _, Ok available) fetch
        (λ _, Some 4096) 1700000000 (Some 4242) join.

(** The same environment on a machine where [wget] cannot be spawned. *)
Definition env_no_wget (available : Z) : Env :=
  mkEnv [wiki; gutenberg; wiki_mini] "/zim" (λ _, Ok available) fetch
        (λ _, Some 4096) 1700000000 None join.


Definition empty : World := mkWorld [] 0 [] 0 ∅ [] [].

Definition wget_wiki : ChildProcess :=
  mkChild 0 (Some 4242) 1 "http://mirror-a/wiki.zim" "/zim/wiki.zim"
          1000000512 (mkBookInfo "wiki" (Some "2024-01") "wiki.zim").

Definition row_wiki (s : Status) : Download :=
  mkDownload 1 (Some "wiki") s (Some "/zim/wiki.zim") (Some 0)
             (Some 1000000512) (Some 4242) (Some 1700000000) None None.

(** The store after [startDownload "wiki"] and, for [paused], a
    [pauseDownload 1]: one row, its process still registered. *)
Definition running (s : Status) : World :=
  mkWorld [row_wiki s] 1 [] 0 {[ 1 := wget_wiki ]} [wget_wiki]
          (if bool_decide (s = paused) then [(0%nat, SIGSTOP)] else []).

Definition row_gutenberg : Download :=
  mkDownload 1 (Some "gutenberg") downloading (Some "/zim/gutenberg.zim")
             (Some 0) (Some 0) (Some 4242) (Some 1700000000) None None.

Definition wget_gutenberg : ChildProcess :=
  mkChild 0 (Some 4242) 1 "http://mirror-a/gutenberg.zim" "/zim/gutenberg.zim"
          0 (mkBookInfo "gutenberg" None "gutenberg.zim").

(** The store after [startDownload "gutenberg"]. *)
Definition fetching : World :=
  mkWorld [row_gutenberg] 1 [] 0 {[ 1 := wget_gutenberg ]} [wget_gutenberg] [].

(** The store after the manager restarted: the row is there, the process
    table is empty. *)
Definition orphaned (s : Status) : World :=
  mkWorld [row_wiki s] 1 [] 0 ∅ [] [].


(** The process that a failed spawn leaves registered for [wiki]. *)
Definition wget_unspawned : ChildProcess :=
  mkChild 0 None 1 "http://mirror-a/wiki.zim" "/zim/wiki.zim"
          1000000512 (mkBookInfo "wiki" (Some "2024-01") "wiki.zim").

(** Two books are started whose metalinks name the same file. *)
Definition both_started : World :=
  run_events [(env 3000000000, Start "wiki");
              (env 3000000000, Start "wiki_mini")] empty.

End Scenario.

(** ** [src/services/downloader.ts]: the look-up by book *)

Definition getDownloadByBookId (bookId : string) : M (option Download) :=
  select_download (has_bookId bookId).

(** ** Invariants of the process table and of the local library *)

(** Every entry of [activeProcesses] is filed under the download id its
    process was spawned for, the process is one the manager spawned, and
    the store has a row of that id. *)
Definition table_consistent (w : World) : Prop :=
  ∀ i process,
    activeProcesses w !! i = Some process →
    cp_downloadId process = i
    ∧ process ∈ spawned w
    ∧ ∃ d, d ∈ downloads w ∧ dl_id d = i.

(** [local_zims.file_path] is declared [unique()]. *)
Definition unique_paths (w : World) : Prop :=
  NoDup (lz_filePath <$> localZims w).

(** ** [src/services/settings.ts] *)

(** [keyof AppSettings] *)
Inductive SettingKey := downloadFolder | kiwixServeUrl | catalogSyncInterval.

Definition key_name (key : SettingKey) : string :=
  match key with
  | downloadFolder => "downloadFolder"
  | kiwixServeUrl => "kiwixServeUrl"
  | catalogSyncInterval => "catalogSyncInterval"
  end.

Record AppSettings := mkSettings {
  as_downloadFolder : string;
  as_kiwixServeUrl : string;
  as_catalogSyncInterval : string;
}.

(** [DEFAULT_SETTINGS], given [join(homedir(), "zim-files")]. *)
Definition DEFAULT_SETTINGS (home_zim_files : string) : AppSettings :=
  mkSettings home_zim_files "http://localhost:8080" "0 0 * * *".

(** [DEFAULT_SETTINGS[key]] *)
Definition default_setting (defaults : AppSettings) (key : SettingKey) : string :=
  match key with
  | downloadFolder => as_downloadFolder defaults
  | kiwixServeUrl => as_kiwixServeUrl defaults
  | catalogSyncInterval => as_catalogSyncInterval defaults
  end.

(** The table [settings]: [key] is the primary key, [value] is nullable.
    The operations below take the table and give the table back. *)
Definition getSetting (defaults : AppSettings) (key : SettingKey)
    (table : gmap string (option string)) : string :=
  match table !! key_name key with
  | Some (Some value) => value
  | _ => default_setting defaults key
  end.

(** [insert ... onConflictDoUpdate({ target: key, set: { value } })] *)
Definition setSetting (key : SettingKey) (value : string)
    (table : gmap string (option string)) : gmap string (option string) :=
  <[key_name key := Some value]> table.

(** [settingsMap.get(k) ?? d]: a missing row and a null value alike give
    the default. *)
Definition getAllSettings (defaults : AppSettings)
    (table : gmap string (option string)) : AppSettings :=
  let lookup k := default (default_setting defaults k) (mjoin (table !! key_name k)) in
  mkSettings (lookup downloadFolder) (lookup kiwixServeUrl)
             (lookup catalogSyncInterval).

(** One turn of the loop of [initializeDefaults]. *)
Definition initialize_default (defaults : AppSettings)
    (table : gmap string (option string)) (key : SettingKey)
    : gmap string (option string) :=
  match table !! key_name key with
  | Some _ => table
  | None => <[key_name key := Some (default_setting defaults key)]> table
  end.

(** [Object.entries(DEFAULT_SETTINGS)], in the order of the literal. *)
Definition initializeDefaults (defaults : AppSettings)
    (table : gmap string (option string)) : gmap string (option string) :=
  foldl (initialize_default defaults) table
        [downloadFolder; kiwixServeUrl; catalogSyncInterval].

(** ** File names: [getZimFiles] of [src/services/disk.ts] and
    [parseZimFilename] of the library service

    A string is the list of the bytes of its UTF-8 form. The patterns of
    these functions are ASCII, and a byte of a character outside ASCII is
    never an ASCII byte, so a suffix test and a cut counted in ASCII
    characters are the same on bytes as on the source's code units. *)

(** An ASCII capital becomes its small letter; nothing else moves. No
    character outside ASCII lowercases to one of [.], [z], [i], [m] alone,
    so the test of [getZimFiles] does not see the difference. *)
Definition lower_ascii (a : ascii) : ascii :=
  let n := nat_of_ascii a in
  if ((65 <=? n) && (n <=? 90))%nat then ascii_of_nat (n + 32) else a.

(** The last [k] characters, all of them when there are fewer. *)
Definition last_chars (k : nat) (l : list ascii) : list ascii :=
  drop (length l - k) l.

(** The four characters are [.zim] in any letter case. *)
Definition is_zim_ext (l : list ascii) : bool :=
  bool_decide (lower_ascii <$> l = [".";"z";"i";"m"]%char).

(** [file.toLowerCase().endsWith(".zim")] *)
Definition is_zim_file (file : string) : bool :=
  is_zim_ext (last_chars 4 (Strings.String.list_ascii_of_string file)).

(** [getZimFiles], given what [readdirSync] lists, or [None] when the
    folder does not exist. *)
Definition getZimFiles (listing : option (list string)) : list string :=
  match listing with
  | None => []
  | Some files => List.filter is_zim_file files
  end.

(** [filename.replace(/\.zim$/i, "")] *)
Definition strip_zim_ext (filename : string) : string :=
  let l := Strings.String.list_ascii_of_string filename in
  if is_zim_ext (last_chars 4 l)
  then Strings.String.string_of_list_ascii (take (length l - 4) l)
  else filename.

(** [\d{4}-\d{2}] *)
Definition is_month (l : list ascii) : bool :=
  match l with
  | [y1; y2; y3; y4; h; m1; m2] =>
      is_digit y1 && is_digit y2 && is_digit y3 && is_digit y4
      && bool_decide (h = "-"%char) && is_digit m1 && is_digit m2
  | _ => false
  end.

(** [\d{4}-\d{2}-\d{2}] *)
Definition is_day (l : list ascii) : bool :=
  match l with
  | [y1; y2; y3; y4; h1; m1; m2; h2; d1; d2] =>
      is_digit y1 && is_digit y2 && is_digit y3 && is_digit y4
      && bool_decide (h1 = "-"%char) && is_digit m1 && is_digit m2
      && bool_decide (h2 = "-"%char) && is_digit d1 && is_digit d2
  | _ => false
  end.

(** The string ends with [_] and then [k] characters accepted by [shape]:
    these characters. *)
Definition dated_tail (shape : list ascii → bool) (k : nat) (l : list ascii)
    : option (list ascii) :=
  if bool_decide (last_chars (S k) l = "_"%char :: last_chars k l)
     && shape (last_chars k l)
  then Some (last_chars k l)
  else None.

(** Group 1 of [withoutExt.match(/_(\d{4}-\d{2}(?:-\d{2})?)$/)]. A match
    ends at the end of the string; the one with the day starts further
    left, so it is the one found when there is one. *)
Definition match_date (l : list ascii) : option (list ascii) :=
  match dated_tail is_day 10 l with
  | Some date => Some date
  | None => dated_tail is_month 7 l
  end.

(** [parseZimFilename]: [(baseName, date)]. *)
Definition parseZimFilename (filename : string) : string * option string :=
  let withoutExt := strip_zim_ext filename in
  let l := Strings.String.list_ascii_of_string withoutExt in
  match match_date l with
  | Some date =>
      (* withoutExt.slice(0, -date.length - 1) *)
      (Strings.String.string_of_list_ascii (take (length l - (length date + 1)) l),
       Some (Strings.String.string_of_list_ascii date))
  | None => (withoutExt, None)
  end.

(** * Properties *)

(** Unfolds the monad, so that an operation applied to a world computes. *)
Ltac run :=
  unfold on_error, getDiskSpace, resolveMeta4Url, update_downloads,
    delete_downloads, select_download, kill, modify, get_world, throw,
    lift_result, mbind, M_bind, mret, M_ret in *;
  simpl in *.

(** ** The model on concrete inputs *)

Example parseInt_plain : parseInt "12" = JInt 12.
Proof. reflexivity. Qed.

Example parseInt_prefix : parseInt "  -7px" = JInt (-7).
Proof. reflexivity. Qed.

Example parseInt_nan : parseInt "high" = JNaN.
Proof. reflexivity. Qed.

(** A no-break space, U+00A0, before the digits. *)
Example parseInt_nbsp :
  parseInt (String "194" (String "160" "42")) = JInt 42.
Proof. reflexivity. Qed.

(** 2^53 + 1 is no double: it lies half way between 2^53 and 2^53 + 2. *)
Example parseInt_rounds : parseInt "9007199254740993" = JInt 9007199254740992.
Proof. reflexivity. Qed.

Example parseInt_rounds_up : parseInt "9007199254740995" = JInt 9007199254740996.
Proof. reflexivity. Qed.

Example array_sort_stable :
  c_url <$> array_sort by_priority
              [mkCandidate "a" (JInt 2); mkCandidate "b" (JInt 1);
               mkCandidate "c" (JInt 2); mkCandidate "d" (JInt 1)]
  = ["b"; "d"; "a"; "c"]%string.
Proof. reflexivity. Qed.

(** The worlds of [Scenario] are the ones the operations produce. *)
Example running_reached :
  (startDownload (Scenario.env 3000000000) "wiki" Scenario.empty).1
  = Scenario.running downloading.
Proof. reflexivity. Qed.

Example paused_reached :
  (pauseDownload 1 (Scenario.running downloading)).1 = Scenario.running paused.
Proof. reflexivity. Qed.

(** Where [wget] cannot be spawned, the row is written and the process
    registered when [startDownload] throws. *)
Example unspawned_reached :
  startDownload (Scenario.env_no_wget 3000000000) "wiki" Scenario.empty
  = (mkWorld
       [mkDownload 1 (Some "wiki") downloading (Some "/zim/wiki.zim") (Some 0)
          (Some 1000000512) None (Some 1700000000) None None]
       1 [] 0 {[ 1 := Scenario.wget_unspawned ]} [Scenario.wget_unspawned] [],
     Throw "No values to set").
Proof. reflexivity. Qed.

Example fetching_reached :
  (startDownload (Scenario.env 3000000000) "gutenberg" Scenario.empty).1
  = Scenario.fetching.
Proof. reflexivity. Qed.

(** ** Disk admission *)

Lemma round_double_pos_small (z : Z) :
  0 ≤ z ≤ 9007199254740992 → round_double_pos z = z.
Proof.
  intros Hz. destruct (decide (z = 9007199254740992)) as [->|Hne]; [reflexivity|].
  unfold round_double_pos.
  assert (Z.log2 z < 53) as Hlog.
  { destruct (decide (z = 0)) as [->|Hz0]; [done|].
    apply Z.log2_lt_pow2; [lia|]. change (2 ^ 53) with 9007199254740992. lia. }
  by rewrite (proj2 (Z.leb_le _ _)) by lia.
Qed.

Lemma round_double_small (z : Z) :
  -9007199254740992 ≤ z ≤ 9007199254740992 → round_double z = z.
Proof.
  intros Hz. unfold round_double. destruct (Z.ltb_spec z 0).
  - rewrite round_double_pos_small by lia. lia.
  - by rewrite round_double_pos_small by lia.
Qed.

Lemma round_double_pos_positive (z : Z) : 0 < z → 0 < round_double_pos z.
Proof.
  intros Hz. unfold round_double_pos.
  destruct (Z.leb_spec (Z.log2 z - 52) 0) as [|He]; [done|].
  set (e := Z.log2 z - 52) in *.
  assert (0 < 2 ^ e) as Hpow by (apply Z.pow_pos_nonneg; lia).
  assert (0 < z / 2 ^ e) as Hq.
  { apply Z.div_str_pos. split; [done|].
    transitivity (2 ^ Z.log2 z); [apply Z.pow_le_mono_r; lia|].
    by apply Z.log2_spec. }
  destruct (_ || _); nia.
Qed.

(** Rounding keeps the sign. *)
Lemma round_double_sign (z : Z) : round_double z ≤ 0 ↔ z ≤ 0.
Proof.
  unfold round_double. destruct (Z.ltb_spec z 0) as [Hneg|Hpos].
  - pose proof (round_double_pos_positive (- z)). lia.
  - destruct (decide (z = 0)) as [->|Hne]; [done|].
    pose proof (round_double_pos_positive z). lia.
Qed.

Lemma to_number_small (z : Z) :
  -9007199254740992 ≤ z ≤ 9007199254740992 → to_number z = JInt z.
Proof.
  intros Hz. unfold to_number. rewrite round_double_small by done.
  assert (9007199254740992 < 2 ^ 1024) as Hbig by done.
  rewrite (proj2 (Z.leb_gt _ _)) by lia.
  by rewrite (proj2 (Z.leb_gt _ _)) by lia.
Qed.

Lemma hasEnoughSpace_spec (available required : Z) :
  -9007199254740992 ≤ required + 1073741824 ≤ 9007199254740992 →
  hasEnoughSpace available required = true ↔ (available >= required + 1073741824)%Z.
Proof.
  intros Hreq. unfold hasEnoughSpace.
  change (1024 * 1024 * 1024) with 1073741824.
  rewrite to_number_small by done. rewrite Z.geb_le. lia.
Qed.


(** What [startDownload] does up to and including the admission check. *)
Lemma startDownload_rejected (E : Env) (bookId meta4Url : string)
    (book : CatalogBook) (available : Z) (w : World) :
  getBookById E bookId = Some book →
  book_url book = Some meta4Url → meta4Url ≠ EmptyString →
  df_available E (setting_downloadFolder E) = Ok available →
  hasEnoughSpace available (default 0 (book_size book) * 1024) = false →
  startDownload E bookId w =
    (w, Throw ("Not enough disk space. Required: "
               +:+ pretty (default 0 (book_size book) * 1024)
               +:+ ", Available: " +:+ pretty available)).
Proof.
  intros Hbook Hurl Hne Hdf Hspace. unfold startDownload.
  rewrite Hbook, Hurl. destruct meta4Url as [|c s]; [done|].
  run. rewrite Hdf. run. by rewrite Hspace.
Qed.

(** C3, as stated, at 2^53 bytes available and 2^53 - 2^30 + 1 bytes
    required: the sum of the requirement and the margin is 2^53 + 1, which
    the addition rounds to 2^53, and the check admits although
    [available] is one byte short of [required + 1073741824]. *)
Lemma disk_admission_rounds :
  0 ≤ 9007199254740992 ∧ 0 ≤ 9007198180999169
  ∧ ¬ (hasEnoughSpace 9007199254740992 9007198180999169 = true
         ↔ (9007199254740992 >= 9007198180999169 + 1073741824)%Z).
Proof.
  split; [done|]. split; [done|]. intros [Hadmits _].
  specialize (Hadmits eq_refl). lia.
Qed.

(** C3, amended. For non-negative [available] and [required] with
    [required + 1073741824] at most 2^53, the range in which the sum is
    exact, the admission check admits exactly when
    [available >= required + 1073741824]; it rejects 2050000000 available
    for 1000000000 required and accepts 3000000000 available for
    1000000000 required; and [startDownload] on a book that fails the
    check throws the disk-space error and leaves the world as it was, so
    that no row is written and no process is spawned. *)
Theorem disk_admission (available required : Z) :
  0 ≤ available → 0 ≤ required →
  required + 1073741824 ≤ 9007199254740992 →
  (hasEnoughSpace available required = true
     ↔ (available >= required + 1073741824)%Z)
  ∧ hasEnoughSpace 2050000000 1000000000 = false
  ∧ hasEnoughSpace 3000000000 1000000000 = true
  ∧ ∀ (E : Env) (bookId meta4Url : string) (book : CatalogBook) (w : World),
      getBookById E bookId = Some book →
      book_url book = Some meta4Url → meta4Url ≠ EmptyString →
      required = default 0 (book_size book) * 1024 →
      df_available E (setting_downloadFolder E) = Ok available →
      hasEnoughSpace available required = false →
      startDownload E bookId w =
        (w, Throw ("Not enough disk space. Required: " +:+ pretty required
                   +:+ ", Available: " +:+ pretty available)).
Proof.
  intros _ Hreq Hbound. split; [apply hasEnoughSpace_spec; lia|].
  split; [reflexivity|]. split; [reflexivity|].
  intros E bookId meta4Url book w Hbook Hurl Hne -> Hdf Hspace.
  by eapply startDownload_rejected.
Qed.

Lemma disk_admission_witness :
  (hasEnoughSpace 2050000000 1000000512 = true
     ↔ (2050000000 >= 1000000512 + 1073741824)%Z)
  ∧ startDownload (Scenario.env 2050000000) "wiki" Scenario.empty =
      (Scenario.empty,
       Throw "Not enough disk space. Required: 1000000512, Available: 2050000000").
Proof.
  destruct (disk_admission 2050000000 1000000512) as (H1 & _ & _ & H4);
    [lia | lia | lia |].
  split; [exact H1|].
  apply (H4 (Scenario.env 2050000000) "wiki"%string "http://cat/wiki.meta4"%string
            Scenario.wiki Scenario.empty);
    first [reflexivity | discriminate].
Defined.

(** ** Rows and updates *)

Lemma update_where_length {A} (p : A → bool) (f : A → A) (rows : list A) :
  length (update_where p f rows) = length rows.
Proof. unfold update_where. by rewrite length_fmap. Qed.


Lemma elem_of_update_where_hit {A} (p : A → bool) (f : A → A) (rows : list A)
    (r : A) :
  r ∈ rows → p r = true → f r ∈ update_where p f rows.
Proof.
  intros Hin Hp. unfold update_where. apply list_elem_of_fmap.
  exists r. by rewrite Hp.
Qed.

Lemma find_none_elem_of {A} (p : A → bool) (rows : list A) (r : A) :
  List.find p rows = None → r ∈ rows → p r = false.
Proof.
  intros Hfind Hin. apply (find_none p rows Hfind). by apply list_elem_of_In.
Qed.

Lemma find_some_elem_of {A} (p : A → bool) (rows : list A) (r : A) :
  List.find p rows = Some r → r ∈ rows ∧ p r = true.
Proof.
  intros Hfind. apply find_some in Hfind as [Hin Hp].
  split; [by apply list_elem_of_In | done].
Qed.

(** ** The three outcomes of [startDownload] once its checks pass *)

Lemma find_update_where_id (i : Z) (f : Download → Download) (rows : list Download) :
  (∀ d, dl_id (f d) = dl_id d) →
  List.find (has_id i) (update_where (has_id i) f rows)
  = f <$> List.find (has_id i) rows.
Proof.
  intros Hid. induction rows as [|r rows IH]; [done|]. simpl.
  destruct (has_id i r) eqn:Hr.
  - unfold has_id in *. rewrite Hid. by rewrite Hr.
  - by rewrite Hr.
Qed.

Lemma startDownload_in_progress E bookId book doc downloadUrl (w : World) e :
  preflight E bookId book doc downloadUrl →
  List.find (has_bookId bookId) (downloads w) = Some e →
  dl_status e = downloading →
  startDownload E bookId w =
    (w, Throw ("Download already in progress for: " +:+ bookId)).
Proof.
  intros (Hbook & Hurl & (available & Hdf & Hspace) & Hfetch & Hsel) He Hst.
  unfold startDownload. rewrite Hbook.
  destruct (book_url book) as [[|c u]|]; try done.
  run. rewrite Hdf. run. rewrite Hspace. run.
  rewrite Hfetch. run. rewrite Hsel. run. rewrite He. run.
  by rewrite Hst.
Qed.

Lemma startDownload_reuse E bookId book doc downloadUrl (w : World) e :
  preflight E bookId book doc downloadUrl →
  List.find (has_bookId bookId) (downloads w) = Some e →
  dl_status e ≠ downloading →
  ∃ d, List.find (has_id (dl_id e)) (downloads w) = Some d
     ∧ startDownload E bookId w =
         (started E book doc downloadUrl (set_downloading (now E) d)
            (with_downloads
               (update_where (has_id (dl_id e)) (set_downloading (now E))) w),
          spawn_outcome E (set_downloading (now E) d)).
Proof.
  intros (Hbook & Hurl & (available & Hdf & Hspace) & Hfetch & Hsel) He Hst.
  destruct (List.find (has_id (dl_id e)) (downloads w)) as [d|] eqn:Hd.
  2:{ apply find_some_elem_of in He as [Hin _].
      apply (find_none_elem_of _ _ _ Hd) in Hin.
      unfold has_id in Hin. by apply bool_decide_eq_false in Hin. }
  exists d. split; [done|].
  unfold startDownload. rewrite Hbook.
  destruct (book_url book) as [[|c u]|]; try done.
  run. rewrite Hdf. run. rewrite Hspace. run.
  rewrite Hfetch. run. rewrite Hsel. run. rewrite He. run.
  rewrite bool_decide_eq_false_2 by congruence.
  rewrite find_update_where_id by done. rewrite Hd.
  unfold started, spawn_outcome, spawnWget. simpl. by destruct (spawn_pid E).
Qed.

Lemma startDownload_insert E bookId book doc downloadUrl (w : World) :
  preflight E bookId book doc downloadUrl →
  List.find (has_bookId bookId) (downloads w) = None →
  let i := next_rowid (downloads_seq w) (dl_id <$> downloads w) in
  let d := fresh_row E bookId book doc i in
  startDownload E bookId w =
    (started E book doc downloadUrl d
       (mkWorld (downloads w ++ [d]) i (localZims w) (localZims_seq w)
                (activeProcesses w) (spawned w) (signals w)),
     spawn_outcome E d).
Proof.
  intros (Hbook & Hurl & (available & Hdf & Hspace) & Hfetch & Hsel) He.
  unfold startDownload. rewrite Hbook.
  destruct (book_url book) as [[|c u]|]; try done.
  run. rewrite Hdf. run. rewrite Hspace. run.
  rewrite Hfetch. run. rewrite Hsel. run. rewrite He.
  unfold started, spawn_outcome, spawnWget. simpl. by destruct (spawn_pid E).
Qed.



Lemma started_length E book doc downloadUrl d (w : World) :
  length (downloads (started E book doc downloadUrl d w)) = length (downloads w).
Proof.
  unfold started, spawnWget. simpl. destruct (spawn_pid E); [|done].
  simpl. apply update_where_length.
Qed.

(** ** Books of unknown size *)


Lemma spawn_outcome_ok E (d d' : Download) : spawn_outcome E d = Ok d' → d' = d.
Proof. unfold spawn_outcome. destruct (spawn_pid E); congruence. Qed.




(** ** Progress queries *)

Lemma js_div_finite (a b : Z) : b ≠ 0 → js_div a b = Finite (inject_Z a / inject_Z b).
Proof. intros Hb. unfold js_div. by rewrite (proj2 (Z.eqb_neq b 0) Hb). Qed.

(** C9. For an existing download, [getDownloadProgress] returns a
    percentage of 0 whenever the row's [totalBytes] is 0 or null (read as
    0); the quotient is taken only under the guard [totalBytes > 0], so the
    percentage is always a finite number, never the NaN or Infinity of a
    division by zero. *)
Theorem progress_percentage_guard (E : Env) (downloadId : Z) (w : World)
    (d : Download) :
  List.find (has_id downloadId) (downloads w) = Some d →
  ∃ p, getDownloadProgress E downloadId w = (w, Ok (Some p))
     ∧ dp_totalBytes p = default 0 (dl_totalBytes d)
     ∧ (dl_totalBytes d = None ∨ dl_totalBytes d = Some 0 →
        dp_percentage p = Finite 0)
     ∧ (dp_totalBytes p ≤ 0 → dp_percentage p = Finite 0)
     ∧ (0 < dp_totalBytes p →
        dp_percentage p =
          js_times (js_div (dp_bytesDownloaded p) (dp_totalBytes p)) 100)
     ∧ ∃ q, dp_percentage p = Finite q.
Proof.
  intros Hd. unfold getDownloadProgress. run. rewrite Hd.
  eexists. split; [reflexivity|]. simpl. split; [done|].
  split; [by intros [-> | ->]|].
  destruct (0 <? default 0 (dl_totalBytes d)) eqn:Hpos.
  - apply Z.ltb_lt in Hpos. split; [lia|]. split; [done|].
    rewrite js_div_finite by lia. simpl. eauto.
  - apply Z.ltb_ge in Hpos. split; [done|]. split; [lia|]. eauto.
Qed.

Lemma progress_percentage_guard_witness :
  ∃ p, getDownloadProgress (Scenario.env 3000000000) 1 Scenario.fetching =
         (Scenario.fetching, Ok (Some p))
     ∧ dp_totalBytes p = 0 ∧ dp_bytesDownloaded p = 4096
     ∧ dp_percentage p = Finite 0.
Proof.
  destruct (progress_percentage_guard (Scenario.env 3000000000) 1
              Scenario.fetching Scenario.row_gutenberg eq_refl)
    as (p & Hrun & Htotal & Hzero & _).
  exists p. split; [exact Hrun|]. split; [exact Htotal|].
  split; [|apply Hzero; by right].
  vm_compute in Hrun. by injection Hrun as <-.
Defined.

(** ** Cancelling *)

Lemma update_where_idemp {A} (p : A → bool) (f : A → A) (rows : list A) :
  (∀ r, p (f r) = p r) → (∀ r, f (f r) = f r) →
  update_where p f (update_where p f rows) = update_where p f rows.
Proof.
  intros Hp Hf. unfold update_where. rewrite <- list_fmap_compose.
  apply list_fmap_ext. intros _ r _. simpl.
  destruct (p r) eqn:Hr; [by rewrite Hp, Hr, Hf | by rewrite Hr].
Qed.

Lemma update_where_set_failed (i : Z) (msg : string) (rows : list Download) (r : Download) :
  r ∈ update_where (has_id i) (set_failed msg) rows → dl_id r = i →
  dl_status r = failed ∧ dl_error r = Some msg.
Proof.
  unfold update_where. rewrite list_elem_of_fmap. intros (r0 & -> & _) Hid.
  destruct (has_id i r0) eqn:Hr0; [done|].
  unfold has_id in Hr0. by apply bool_decide_eq_false in Hr0.
Qed.

Lemma set_failed_has_id (i : Z) (msg : string) (r : Download) :
  has_id i (set_failed msg r) = has_id i r.
Proof. done. Qed.

Lemma cancelDownload_run (downloadId : Z) (w : World) :
  cancelDownload downloadId w =
    (mkWorld
       (update_where (has_id downloadId) (set_failed "Cancelled by user")
                     (downloads w))
       (downloads_seq w) (localZims w) (localZims_seq w)
       (delete downloadId (activeProcesses w)) (spawned w)
       (match activeProcesses w !! downloadId with
        | Some process => signals w ++ [(cp_serial process, SIGTERM)]
        | None => signals w
        end),
     Ok tt).
Proof.
  unfold cancelDownload. run.
  destruct (activeProcesses w !! downloadId) as [process|] eqn:Hp; run.
  - done.
  - unfold with_downloads. simpl. by rewrite delete_id.
Qed.

(** C6. [cancelDownload] never throws. Whatever the world, it ends with
    every row of the given id marked [failed] with the error
    ["Cancelled by user"] (and no other row touched); a registered process
    is sent SIGTERM and its entry leaves the table at once; and a second
    call on the same id changes nothing: the status stays [failed] with the
    same error, no signal is sent, and it does not throw either. *)
Theorem cancelDownload_idempotent (downloadId : Z) (w : World) :
  ∃ w1, cancelDownload downloadId w = (w1, Ok tt)
     ∧ downloads w1 =
         update_where (has_id downloadId) (set_failed "Cancelled by user")
                      (downloads w)
     ∧ (∀ r, r ∈ downloads w1 → dl_id r = downloadId →
             dl_status r = failed ∧ dl_error r = Some "Cancelled by user"%string)
     ∧ length (downloads w1) = length (downloads w)
     ∧ activeProcesses w1 = delete downloadId (activeProcesses w)
     ∧ activeProcesses w1 !! downloadId = None
     ∧ (∀ process, activeProcesses w !! downloadId = Some process →
                   signals w1 = signals w ++ [(cp_serial process, SIGTERM)])
     ∧ (activeProcesses w !! downloadId = None → signals w1 = signals w)
     ∧ cancelDownload downloadId w1 = (w1, Ok tt).
Proof.
  eexists. split; [apply cancelDownload_run|]. simpl.
  split; [done|]. split.
  { intros r Hin Hid. by eapply update_where_set_failed. }
  split; [apply update_where_length|]. split; [done|].
  split; [apply lookup_delete_eq|].
  split; [by intros process ->|]. split; [by intros ->|].
  rewrite cancelDownload_run. simpl.
  rewrite lookup_delete_eq, delete_delete_eq.
  by rewrite update_where_idemp.
Qed.

Lemma cancelDownload_idempotent_witness :
  ∃ w1, cancelDownload 1 (Scenario.running paused) = (w1, Ok tt)
      ∧ signals w1 = [(0%nat, SIGSTOP); (0%nat, SIGTERM)]
      ∧ cancelDownload 1 w1 = (w1, Ok tt).
Proof.
  destruct (cancelDownload_idempotent 1 (Scenario.running paused))
    as (w1 & Hrun & _ & _ & _ & _ & _ & Hsig & _ & Hagain).
  exists w1. split; [exact Hrun|].
  split; [exact (Hsig Scenario.wget_wiki eq_refl) | exact Hagain].
Defined.

(** ** Reconciling the exit of the process *)

(** The store and the process table after the [close] handler ran for exit
    code 0. *)
Lemma on_close_zero (E : Env) (wget : ChildProcess) (w : World) :
  ∃ w1, on_close E wget (Some 0) w = (w1, Ok tt)
      ∧ downloads w1 =
          update_where (has_id (cp_downloadId wget))
            (set_completed
               (default (cp_totalBytes wget) (stat_size E (cp_outputPath wget)))
               (now E))
            (downloads w)
      ∧ activeProcesses w1 = delete (cp_downloadId wget) (activeProcesses w)
      ∧ spawned w1 = spawned w ∧ signals w1 = signals w.
Proof.
  unfold on_close. run.
  destruct (List.find _ (localZims w)) as [z|]; run; eexists; split; done.
Qed.

(** The same for any other exit code, [null] included. *)
Lemma on_close_nonzero (E : Env) (wget : ChildProcess) (code : option Z)
    (w : World) :
  code ≠ Some 0 →
  on_close E wget code w =
    (mkWorld
       (if bool_decide (dl_status <$> List.find (has_id (cp_downloadId wget))
                                                (downloads w) ≠ Some paused)
        then update_where (has_id (cp_downloadId wget))
               (set_failed ("wget exited with code " +:+ show_code code))
               (downloads w)
        else downloads w)
       (downloads_seq w) (localZims w) (localZims_seq w)
       (delete (cp_downloadId wget) (activeProcesses w))
       (spawned w) (signals w),
     Ok tt).
Proof.
  intros Hcode. unfold on_close. run.
  rewrite bool_decide_eq_false_2 by done.
  unfold with_activeProcesses, with_downloads. simpl.
  by destruct (bool_decide _).
Qed.

(** C1, as the specification states it, fails: a download whose persisted
    status is [paused] when its process exits with code 0 is overwritten to
    [completed]. *)
Lemma exit_zero_overwrites_paused :
  dl_status <$> List.find (has_id 1) (downloads (Scenario.running paused))
    = Some paused
  ∧ dl_status <$>
      List.find (has_id 1)
        (downloads (on_close (Scenario.env 0) Scenario.wget_wiki (Some 0)
                             (Scenario.running paused)).1)
    = Some completed.
Proof. split; reflexivity. Qed.

(** C1, amended. When the process exits with code 0 the [close] handler
    marks the row [completed] whatever its persisted status, [paused]
    included, with the size of the file (or [totalBytes] when [stat]
    fails), the completion time and no pid. A persisted [paused] survives
    only an exit with another code, and such an exit never makes a row
    [completed] that was not. *)
Theorem exit_zero_completes (E : Env) (wget : ChildProcess) (code : option Z)
    (w : World) (d : Download) :
  List.find (has_id (cp_downloadId wget)) (downloads w) = Some d →
  (∃ w1 d1,
     on_close E wget (Some 0) w = (w1, Ok tt)
     ∧ List.find (has_id (cp_downloadId wget)) (downloads w1) = Some d1
     ∧ dl_status d1 = completed
     ∧ dl_bytesDownloaded d1 =
         Some (default (cp_totalBytes wget) (stat_size E (cp_outputPath wget)))
     ∧ dl_completedAt d1 = Some (now E)
     ∧ dl_pid d1 = None
     ∧ activeProcesses w1 !! cp_downloadId wget = None)
  ∧ (code ≠ Some 0 →
     ∃ w1 d1,
       on_close E wget code w = (w1, Ok tt)
       ∧ List.find (has_id (cp_downloadId wget)) (downloads w1) = Some d1
       ∧ (dl_status d = paused → d1 = d)
       ∧ (dl_status d ≠ completed → dl_status d1 ≠ completed)).
Proof.
  intros Hd. split.
  - destruct (on_close_zero E wget w) as (w1 & Hrun & Hrows & Hact & _).
    exists w1. eexists. split; [exact Hrun|].
    rewrite Hrows, Hact, lookup_delete_eq.
    rewrite find_update_where_id, Hd by done. simpl. split_and!; done.
  - intros Hcode. rewrite on_close_nonzero by done. rewrite Hd. simpl.
    destruct (decide (dl_status d = paused)) as [Hp|Hp].
    + rewrite bool_decide_eq_false_2 by (rewrite Hp; auto).
      eexists _, d. split; [reflexivity|]. simpl. split_and!; done.
    + rewrite bool_decide_eq_true_2 by congruence.
      eexists _, _. split; [reflexivity|]. simpl.
      rewrite find_update_where_id, Hd by done. simpl. split_and!; done.
Qed.

Lemma exit_zero_completes_witness :
  (∃ w1 d1, on_close (Scenario.env 0) Scenario.wget_wiki (Some 0)
              (Scenario.running paused) = (w1, Ok tt)
          ∧ List.find (has_id 1) (downloads w1) = Some d1
          ∧ dl_status d1 = completed
          ∧ dl_bytesDownloaded d1 = Some 4096)
  ∧ (∃ w1, on_close (Scenario.env 0) Scenario.wget_wiki None
             (Scenario.running paused) = (w1, Ok tt)
         ∧ List.find (has_id 1) (downloads w1) = Some (Scenario.row_wiki paused)).
Proof.
  destruct (exit_zero_completes (Scenario.env 0) Scenario.wget_wiki None
              (Scenario.running paused) (Scenario.row_wiki paused) eq_refl)
    as [(w1 & d1 & Hrun & Hfind & Hst & Hbytes & _) Hother].
  split.
  - exists w1, d1. split; [exact Hrun|]. split; [exact Hfind|].
    split; [exact Hst | exact Hbytes].
  - destruct (Hother ltac:(discriminate)) as (w2 & d2 & Hrun2 & Hfind2 & Hkeep & _).
    exists w2. split; [exact Hrun2|].
    rewrite <- (Hkeep eq_refl). exact Hfind2.
Defined.

(** ** The mirror resolver *)

Section sorting.
Context {A : Type} (comparefn : A → A → JsInt).

Lemma sort_insert_perm (x : A) (l : list A) :
  sort_insert comparefn x l ≡ₚ x :: l.
Proof.
  induction l as [|y l IH]; simpl; [done|].
  destruct (sort_keeps comparefn x y); [done|].
  rewrite IH. apply Permutation_swap.
Qed.

Lemma array_sort_perm (l : list A) : array_sort comparefn l ≡ₚ l.
Proof.
  induction l as [|x l IH]; simpl; [done|].
  by rewrite sort_insert_perm, IH.
Qed.

End sorting.

(** The sign of a difference survives its rounding, so the comparator
    orders finite priorities as the integers they are. *)
Lemma to_number_keeps (z : Z) :
  match to_number z with
  | JInt v => bool_decide (v ≤ 0)
  | JNegInf | JNaN => true
  | JPosInf => false
  end = bool_decide (z ≤ 0).
Proof.
  assert (0 < 2 ^ 1024) as Hbig by (by apply Z.pow_pos_nonneg).
  pose proof (round_double_sign z) as Hsign. unfold to_number.
  destruct (Z.leb_spec (2 ^ 1024) (round_double z)).
  { rewrite bool_decide_eq_false_2; [done | lia]. }
  destruct (Z.leb_spec (round_double z) (- 2 ^ 1024)).
  { rewrite bool_decide_eq_true_2; [done | lia]. }
  apply bool_decide_ext. lia.
Qed.

Lemma sort_keeps_numeric (a b : Candidate) :
  numeric a → numeric b →
  sort_keeps by_priority a b = bool_decide (priority_value a ≤ priority_value b).
Proof.
  unfold numeric, sort_keeps, by_priority, priority_value.
  intros [x ->] [y ->]. cbn [js_minus]. rewrite to_number_keeps.
  apply bool_decide_ext. lia.
Qed.

Lemma sort_insert_sorted (x : Candidate) (l : list Candidate) :
  numeric x → Forall numeric l →
  StronglySorted (λ a b, priority_value a ≤ priority_value b) l →
  StronglySorted (λ a b, priority_value a ≤ priority_value b)
                 (sort_insert by_priority x l).
Proof.
  intros Hx Hl Hs. induction Hs as [|y l Hs IH Hy]; simpl.
  - repeat constructor.
  - apply Forall_cons in Hl as [Hny Hl].
    rewrite sort_keeps_numeric by done. case_bool_decide as Hle.
    + constructor; [by constructor|].
      constructor; [done|]. eapply Forall_impl; [exact Hy|].
      simpl. intros z Hz. lia.
    + constructor; [by apply IH|].
      rewrite sort_insert_perm. constructor; [lia | done].
Qed.

Lemma array_sort_sorted (l : list Candidate) :
  Forall numeric l →
  StronglySorted (λ a b, priority_value a ≤ priority_value b)
                 (array_sort by_priority l).
Proof.
  induction 1 as [|x l Hx Hl IH]; simpl; [constructor|].
  apply sort_insert_sorted; [done| |done].
  by rewrite array_sort_perm.
Qed.

(** The sort is stable, so its first element is the first candidate of the
    least priority. *)
Lemma array_sort_head (l : list Candidate) :
  l ≠ [] → Forall numeric l →
  ∃ before c after rest,
    l = before ++ c :: after
    ∧ array_sort by_priority l = c :: rest
    ∧ Forall (λ b, priority_value c < priority_value b) before
    ∧ Forall (λ a, priority_value c ≤ priority_value a) after.
Proof.
  intros Hne Hl. induction Hl as [|x l Hx Hl IH]; [done|]. clear Hne.
  destruct l as [|y l'].
  { exists [], x, [], []. split_and!; done. }
  destruct IH as (before & c & after & rest & Heq & Hsort & Hb & Ha); [done|].
  assert (Hc : numeric c).
  { rewrite Heq in Hl. apply Forall_app in Hl as [_ Hl].
    by apply Forall_cons in Hl as [? _]. }
  simpl array_sort in *. rewrite Hsort. simpl.
  rewrite sort_keeps_numeric by done. case_bool_decide as Hle.
  - exists [], x, (y :: l'), (c :: rest). split_and!; try done.
    rewrite Heq. apply Forall_app. split; [|constructor].
    + eapply Forall_impl; [exact Hb|]. simpl. intros z Hz. lia.
    + done.
    + eapply Forall_impl; [exact Ha|]. simpl. intros z Hz. lia.
  - exists (x :: before), c, after, (sort_insert by_priority x rest).
    split_and!; try done.
    + by rewrite Heq.
    + constructor; [lia | done].
Qed.

Lemma StronglySorted_lookup {A} (R : relation A) (l : list A) (i j : nat)
    (a b : A) :
  StronglySorted R l → (i < j)%nat → l !! i = Some a → l !! j = Some b → R a b.
Proof.
  intros Hs. revert i j.
  induction Hs as [|x l Hs IH Hall]; intros i j Hij Hi Hj; [done|].
  destruct i as [|i]; destruct j as [|j]; try lia; simpl in *.
  - injection Hi as <-. rewrite Forall_forall in Hall. apply Hall.
    by eapply list_elem_of_lookup_2.
  - eapply (IH i j); [lia | done..].
Qed.

Lemma lacks_priority_99 (u : UrlEntry) :
  lacks_priority u = true → c_priority (to_candidate u) = JInt 99.
Proof. by destruct u as [s|text [p|]]. Qed.

(** Two priorities that differ as integers and are the same number: the
    order of the document decides. *)
Example select_url_rounds :
  select_url (UrlArray [UrlNode "http://mirror-a/wiki.zim" (Some "9007199254740993");
                        UrlNode "http://mirror-b/wiki.zim" (Some "9007199254740992")])
  = Ok "http://mirror-a/wiki.zim"%string.
Proof. reflexivity. Qed.

(** C4, as the specification states it, fails: a URL without a priority
    attribute does not sort last. It counts as priority 99, so it is
    preferred to a URL that declares priority 100. *)
Lemma missing_priority_not_last :
  lacks_priority (UrlNode "http://mirror-b/wiki.zim" None) = true
  ∧ lacks_priority (UrlNode "http://mirror-a/wiki.zim" (Some "100")) = false
  ∧ select_url (UrlArray [UrlNode "http://mirror-a/wiki.zim" (Some "100");
                          UrlNode "http://mirror-b/wiki.zim" None])
    = Ok "http://mirror-b/wiki.zim"%string.
Proof. split_and!; reflexivity. Qed.

(** C4, amended. A single URL (a bare string, a single element with
    attributes, or an array of one) is returned unchanged. Several URLs
    whose priority attributes, where present, parse to finite numbers are
    sorted ascending by priority, a URL of a smaller priority before every
    URL of a larger one, and the first is returned, that is the first URL
    of the document among those of the least priority; a URL without a
    priority attribute counts as priority 99, so that it comes before the
    URLs of a larger priority and after those of a smaller one.
    Priorities 3, 1, 2 select the priority-1 URL, and URLs that all lack a
    priority select the first one. *)
Theorem mirror_selection (us : list UrlEntry) :
  us ≠ [] → Forall (λ u, numeric (to_candidate u)) us →
  (∀ s, select_url (UrlString s) = Ok s)
  ∧ (∀ text priority, select_url (UrlObject text priority) = Ok text)
  ∧ (∀ u, select_url (UrlArray [u]) = Ok (c_url (to_candidate u)))
  ∧ (∀ u, lacks_priority u = true → priority_value (to_candidate u) = 99)
  ∧ array_sort by_priority (to_candidate <$> us) ≡ₚ to_candidate <$> us
  ∧ StronglySorted (λ a b, priority_value a ≤ priority_value b)
                   (array_sort by_priority (to_candidate <$> us))
  ∧ (∀ i j a b,
       array_sort by_priority (to_candidate <$> us) !! i = Some a →
       array_sort by_priority (to_candidate <$> us) !! j = Some b →
       priority_value a < priority_value b → (i < j)%nat)
  ∧ (∃ before c after,
       to_candidate <$> us = before ++ c :: after
       ∧ select_url (UrlArray us) = Ok (c_url c)
       ∧ Forall (λ b, priority_value c < priority_value b) before
       ∧ Forall (λ a, priority_value c ≤ priority_value a) after)
  ∧ select_url Scenario.mirrors = Ok "http://mirror-a/wiki.zim"%string
  ∧ (∀ u us', us = u :: us' → Forall (λ v, lacks_priority v = true) us →
              select_url (UrlArray us) = Ok (c_url (to_candidate u))).
Proof.
  intros Hne Hnum.
  assert (Hnum' : Forall numeric (to_candidate <$> us)) by by apply Forall_fmap.
  assert (Hne' : to_candidate <$> us ≠ []) by by destruct us.
  destruct (array_sort_head _ Hne' Hnum')
    as (before & c & after & rest & Heq & Hsort & Hb & Ha).
  split_and!; try done.
  - intros u Hu. unfold priority_value. by rewrite lacks_priority_99.
  - apply array_sort_perm.
  - by apply array_sort_sorted.
  - intros i j a b Hi Hj Hlt.
    destruct (decide (i < j)%nat) as [|Hge]; [done|]. exfalso.
    destruct (decide (i = j)) as [-> | Hne''].
    + rewrite Hi in Hj. injection Hj as ->. lia.
    + pose proof (StronglySorted_lookup _ _ j i b a
                    (array_sort_sorted _ Hnum') ltac:(lia) Hj Hi) as Hle.
      simpl in Hle. lia.
  - exists before, c, after. split_and!; try done.
    unfold select_url. by rewrite Hsort.
  - intros u us' -> Hlack. unfold select_url. rewrite Hsort.
    destruct before as [|b before'].
    + rewrite fmap_cons in Heq. by injection Heq as <- _.
    + exfalso. rewrite fmap_cons, <- app_comm_cons in Heq.
      injection Heq as <- Heq.
      apply Forall_cons in Hb as [Hlt _].
      apply Forall_cons in Hlack as [Hu Hlack].
      assert (Hc : c ∈ to_candidate <$> us')
        by (rewrite Heq; apply elem_of_app; right; apply list_elem_of_here).
      apply list_elem_of_fmap in Hc as (v & -> & Hv).
      rewrite Forall_forall in Hlack. specialize (Hlack v Hv).
      unfold priority_value in Hlt.
      rewrite !lacks_priority_99 in Hlt by done. simpl in Hlt. lia.
Qed.

Lemma mirror_selection_witness :
  (∃ before c after,
     to_candidate <$> [UrlNode "http://mirror-a/wiki.zim" (Some "100");
                       UrlText "http://mirror-b/wiki.zim";
                       UrlNode "http://mirror-c/wiki.zim" (Some "7");
                       UrlNode "http://mirror-d/wiki.zim" (Some "7")]
       = before ++ c :: after
     ∧ select_url (UrlArray [UrlNode "http://mirror-a/wiki.zim" (Some "100");
                             UrlText "http://mirror-b/wiki.zim";
                             UrlNode "http://mirror-c/wiki.zim" (Some "7");
                             UrlNode "http://mirror-d/wiki.zim" (Some "7")])
       = Ok (c_url c)
     ∧ Forall (λ b, priority_value c < priority_value b) before
     ∧ Forall (λ a, priority_value c ≤ priority_value a) after)
  ∧ select_url (UrlArray [UrlNode "http://mirror-a/wiki.zim" None;
                          UrlText "http://mirror-b/wiki.zim"])
    = Ok "http://mirror-a/wiki.zim"%string.
Proof.
  split.
  - destruct (mirror_selection
                [UrlNode "http://mirror-a/wiki.zim" (Some "100");
                 UrlText "http://mirror-b/wiki.zim";
                 UrlNode "http://mirror-c/wiki.zim" (Some "7");
                 UrlNode "http://mirror-d/wiki.zim" (Some "7")])
      as (_ & _ & _ & _ & _ & _ & _ & Hsel & _).
    + discriminate.
    + repeat constructor; eexists; reflexivity.
    + exact Hsel.
  - destruct (mirror_selection
                [UrlNode "http://mirror-a/wiki.zim" None;
                 UrlText "http://mirror-b/wiki.zim"])
      as (_ & _ & _ & _ & _ & _ & _ & _ & _ & Hfirst).
    + discriminate.
    + repeat constructor; eexists; reflexivity.
    + apply (Hfirst _ _ eq_refl). by repeat constructor.
Defined.

(** ** Starting a download for a book that has a row *)

(** Every run of [startDownload] is of one of three kinds: it throws and
    leaves the world as it was; it reuses the first row of the book; or it
    inserts a row for a book that had none. In the last two it spawns a
    process, and answers as [spawn_outcome] says. *)
Lemma startDownload_cases (E : Env) (bookId : string) (w : World) :
  (∃ msg, startDownload E bookId w = (w, Throw msg))
  ∨ ∃ book doc downloadUrl,
      preflight E bookId book doc downloadUrl
      ∧ ((∃ e d,
            List.find (has_bookId bookId) (downloads w) = Some e
            ∧ dl_status e ≠ downloading
            ∧ List.find (has_id (dl_id e)) (downloads w) = Some d
            ∧ startDownload E bookId w =
                (started E book doc downloadUrl (set_downloading (now E) d)
                   (with_downloads
                      (update_where (has_id (dl_id e))
                                    (set_downloading (now E))) w),
                 spawn_outcome E (set_downloading (now E) d)))
         ∨ (List.find (has_bookId bookId) (downloads w) = None
            ∧ startDownload E bookId w =
                (let i := next_rowid (downloads_seq w) (dl_id <$> downloads w) in
                 let d := fresh_row E bookId book doc i in
                 (started E book doc downloadUrl d
                    (mkWorld (downloads w ++ [d]) i (localZims w)
                             (localZims_seq w) (activeProcesses w)
                             (spawned w) (signals w)),
                  spawn_outcome E d)))).
Proof.
  destruct (getBookById E bookId) as [book|] eqn:Hbook.
  2:{ left. unfold startDownload. rewrite Hbook. by eexists. }
  destruct (truthy (book_url book)) eqn:Hurl.
  2:{ left. unfold startDownload. rewrite Hbook.
      destruct (book_url book) as [[|c u]|]; try done; by eexists. }
  destruct (df_available E (setting_downloadFolder E)) as [available|m] eqn:Hdf.
  2:{ left. unfold startDownload. rewrite Hbook.
      destruct (book_url book) as [[|c u]|]; try done.
      run. rewrite Hdf. by eexists. }
  destruct (hasEnoughSpace available (default 0 (book_size book) * 1024))
    eqn:Hspace.
  2:{ left. unfold startDownload. rewrite Hbook.
      destruct (book_url book) as [[|c u]|]; try done.
      run. rewrite Hdf. run. rewrite Hspace. by eexists. }
  destruct (fetch_meta4 E (default EmptyString (book_url book)))
    as [doc|statusText|] eqn:Hfetch.
  2,3: left; unfold startDownload; rewrite Hbook;
       destruct (book_url book) as [[|c u]|]; try done;
       run; rewrite Hdf; run; rewrite Hspace; run; rewrite Hfetch;
       by eexists.
  destruct (select_url (file_url doc)) as [downloadUrl|m] eqn:Hsel.
  2:{ left. unfold startDownload. rewrite Hbook.
      destruct (book_url book) as [[|c u]|]; try done.
      run. rewrite Hdf. run. rewrite Hspace. run. rewrite Hfetch. run.
      rewrite Hsel. by eexists. }
  assert (Hpre : preflight E bookId book doc downloadUrl).
  { unfold preflight. split_and!; try done. by exists available. }
  destruct (List.find (has_bookId bookId) (downloads w)) as [e|] eqn:He.
  - destruct (decide (dl_status e = downloading)) as [Hst|Hst].
    + left. eexists. by eapply startDownload_in_progress.
    + right. exists book, doc, downloadUrl. split; [done|]. left.
      destruct (startDownload_reuse E bookId book doc downloadUrl w e)
        as (d & Hd & Hrun); try done.
      by exists e, d.
  - right. exists book, doc, downloadUrl. split; [done|]. right.
    split; [done|]. by apply startDownload_insert.
Qed.

Lemma spawn_outcome_throw E (d : Download) msg :
  spawn_outcome E d = Throw msg →
  spawn_pid E = None ∧ msg = "No values to set"%string.
Proof. unfold spawn_outcome. destruct (spawn_pid E); [done|]. by intros [= <-]. Qed.

Lemma spawn_outcome_some E (d : Download) pid :
  spawn_pid E = Some pid → spawn_outcome E d = Ok d.
Proof. unfold spawn_outcome. by intros ->. Qed.

(** A throw of [startDownload] leaves the world as it was, unless it is
    the one of a spawn without a pid. *)
Lemma startDownload_throw (E : Env) (bookId : string) (w w' : World) msg :
  startDownload E bookId w = (w', Throw msg) →
  w' = w ∨ (spawn_pid E = None ∧ msg = "No values to set"%string).
Proof.
  destruct (startDownload_cases E bookId w)
    as [[m ->] | (book & doc & url & _ & [(e & d & _ & _ & _ & ->) | [_ ->]])];
    simpl.
  - left. congruence.
  - intros [= _ Hout]. right. by eapply spawn_outcome_throw.
  - intros [= _ Hout]. right. by eapply spawn_outcome_throw.
Qed.

(** With a row of the book in the store, [startDownload] adds no row. *)
Lemma startDownload_existing_length (E : Env) (bookId : string) (w : World) e :
  List.find (has_bookId bookId) (downloads w) = Some e →
  length (downloads (startDownload E bookId w).1) = length (downloads w).
Proof.
  intros He.
  destruct (startDownload_cases E bookId w)
    as [[m ->] | (book & doc & url & _ & [(e' & d & _ & _ & _ & ->) | [Hnone _]])].
  - done.
  - cbn [fst]. rewrite started_length. apply update_where_length.
  - congruence.
Qed.

Lemma started_process E book doc downloadUrl d (w : World) :
  let process :=
    mkChild (length (spawned w)) (spawn_pid E) (dl_id d) downloadUrl
      (path_join E (setting_downloadFolder E) (file_name doc))
      (default 0 (book_size book) * 1024)
      (mkBookInfo (book_id book) (book_date book) (file_name doc)) in
  spawned (started E book doc downloadUrl d w) = spawned w ++ [process]
  ∧ activeProcesses (started E book doc downloadUrl d w)
    = <[dl_id d := process]> (activeProcesses w)
  ∧ signals (started E book doc downloadUrl d w) = signals w.
Proof. unfold started, spawnWget. simpl. by destruct (spawn_pid E). Qed.

(** C2, as the specification states it, fails: with the row of the book
    [paused] and its process still registered, the transfer is active in
    the specification's sense, yet [startDownload] does not reject. It
    returns the row, spawns a second process and puts it in the table in
    place of the first. *)
Lemma paused_transfer_restarted :
  active_transfer (Scenario.running paused) "wiki" = true
  ∧ cp_serial <$> activeProcesses (Scenario.running paused) !! 1 = Some 0%nat
  ∧ (startDownload (Scenario.env 3000000000) "wiki" (Scenario.running paused)).2
    = Ok (set_downloading 1700000000 (Scenario.row_wiki paused))
  ∧ length (spawned (startDownload (Scenario.env 3000000000) "wiki"
                                   (Scenario.running paused)).1) = 2%nat
  ∧ cp_serial <$>
      activeProcesses (startDownload (Scenario.env 3000000000) "wiki"
                                     (Scenario.running paused)).1 !! 1
    = Some 1%nat.
Proof. split_and!; reflexivity. Qed.

(** C2, amended. [startDownload] treats a transfer as active exactly when
    the first row of the book has status [downloading]: then it throws
    (the already-in-progress error once the catalog, disk and metadata
    checks have passed), and the world, with its processes, is as before.
    A row in any other status does not count, [paused] with a registered
    process included: once the checks have passed and the spawn gives a
    process with a pid, the row is reused and returned, the new process
    being registered under the row's id. *)
Theorem startDownload_gate (E : Env) (bookId : string) (w : World)
    (e : Download) :
  List.find (has_bookId bookId) (downloads w) = Some e →
  (dl_status e = downloading →
     (∃ msg, startDownload E bookId w = (w, Throw msg))
     ∧ ∀ book doc downloadUrl,
         preflight E bookId book doc downloadUrl →
         startDownload E bookId w =
           (w, Throw ("Download already in progress for: " +:+ bookId)))
  ∧ (dl_status e ≠ downloading →
     ∀ book doc downloadUrl pid,
       preflight E bookId book doc downloadUrl →
       spawn_pid E = Some pid →
       ∃ w' d process,
         startDownload E bookId w = (w', Ok d)
         ∧ dl_id d = dl_id e ∧ dl_status d = downloading
         ∧ length (downloads w') = length (downloads w)
         ∧ spawned w' = spawned w ++ [process]
         ∧ cp_downloadId process = dl_id e
         ∧ cp_pid process = Some pid
         ∧ activeProcesses w' !! dl_id e = Some process).
Proof.
  intros He. split.
  - intros Hst. split.
    + destruct (startDownload_cases E bookId w)
        as [Hthrow | (book & doc & url & _ &
                      [(e' & d & He' & Hst' & _) | [Hnone _]])];
        [done | congruence | congruence].
    + intros book doc url Hpre. by eapply startDownload_in_progress.
  - intros Hst book doc url pid Hpre Hpid.
    destruct (startDownload_reuse E bookId book doc url w e)
      as (d & Hd & Hrun); try done.
    rewrite (spawn_outcome_some _ _ _ Hpid) in Hrun.
    apply find_some_elem_of in Hd as Hid. destruct Hid as [_ Hid].
    unfold has_id in Hid. apply bool_decide_eq_true in Hid.
    destruct (started_process E book doc url (set_downloading (now E) d)
                (with_downloads
                   (update_where (has_id (dl_id e)) (set_downloading (now E))) w))
      as (Hsp & Hact & _).
    eexists _, _, _. split; [exact Hrun|].
    rewrite started_length, Hsp, Hact. simpl. rewrite update_where_length, Hid.
    split_and!; try done. apply lookup_insert_eq.
Qed.

Lemma startDownload_gate_witness :
  startDownload (Scenario.env 3000000000) "wiki" (Scenario.running downloading)
    = (Scenario.running downloading,
       Throw "Download already in progress for: wiki")
  ∧ ∃ w' d process,
      startDownload (Scenario.env 3000000000) "wiki" (Scenario.running paused)
        = (w', Ok d)
      ∧ dl_status d = downloading
      ∧ spawned w' = [Scenario.wget_wiki; process].
Proof.
  assert (Hpre : preflight (Scenario.env 3000000000) "wiki" Scenario.wiki
                   (mkMeta4 "wiki.zim" Scenario.mirrors)
                   "http://mirror-a/wiki.zim").
  { unfold preflight. split_and!; try reflexivity.
    exists 3000000000. split; reflexivity. }
  split.
  - destruct (startDownload_gate (Scenario.env 3000000000) "wiki"
                (Scenario.running downloading) (Scenario.row_wiki downloading)
                eq_refl) as [Hreject _].
    destruct (Hreject eq_refl) as [_ Hmsg]. exact (Hmsg _ _ _ Hpre).
  - destruct (startDownload_gate (Scenario.env 3000000000) "wiki"
                (Scenario.running paused) (Scenario.row_wiki paused)
                eq_refl) as [_ Hreuse].
    destruct (Hreuse ltac:(discriminate) _ _ _ 4242 Hpre eq_refl)
      as (w' & d & process & Hrun & _ & Hst & _ & Hsp & _).
    exists w', d, process. split; [exact Hrun|]. split; [exact Hst | exact Hsp].
Defined.

(** ** Pausing and resuming *)

Lemma pauseDownload_live (downloadId : Z) (w : World) process :
  live (activeProcesses w !! downloadId) = Some process →
  pauseDownload downloadId w =
    (mkWorld (update_where (has_id downloadId) (set_status paused) (downloads w))
       (downloads_seq w) (localZims w) (localZims_seq w) (activeProcesses w)
       (spawned w) (signals w ++ [(cp_serial process, SIGSTOP)]),
     Ok tt).
Proof. intros Hp. unfold pauseDownload. run. by rewrite Hp. Qed.

Lemma pauseDownload_not_live (downloadId : Z) (w : World) :
  live (activeProcesses w !! downloadId) = None →
  pauseDownload downloadId w = (w, Ok tt).
Proof. intros Hp. unfold pauseDownload. run. by rewrite Hp. Qed.

Lemma resumeDownload_live (E : Env) (downloadId : Z) (w : World) d process :
  List.find (has_id downloadId) (downloads w) = Some d →
  live (activeProcesses w !! downloadId) = Some process →
  resumeDownload E downloadId w =
    (mkWorld
       (update_where (has_id downloadId) (set_status downloading) (downloads w))
       (downloads_seq w) (localZims w) (localZims_seq w) (activeProcesses w)
       (spawned w) (signals w ++ [(cp_serial process, SIGCONT)]),
     Ok tt).
Proof. intros Hd Hp. unfold resumeDownload. run. by rewrite Hd, Hp. Qed.

Lemma resumeDownload_restart (E : Env) (downloadId : Z) (w : World) d bookId :
  List.find (has_id downloadId) (downloads w) = Some d →
  live (activeProcesses w !! downloadId) = None →
  dl_bookId d = Some bookId → bookId ≠ EmptyString →
  resumeDownload E downloadId w = (startDownload E bookId ≫= λ _, mret tt) w.
Proof.
  intros Hd Hp Hb Hne. unfold resumeDownload. run. rewrite Hd, Hp, Hb.
  by destruct bookId.
Qed.

(** The world that [spawnWget] leaves, field by field. *)
Lemma started_unfold E book doc downloadUrl d (w : World) :
  started E book doc downloadUrl d w
  = mkWorld
      (match spawn_pid E with
       | Some p => update_where (has_id (dl_id d)) (set_pid p) (downloads w)
       | None => downloads w
       end)
      (downloads_seq w) (localZims w) (localZims_seq w)
      (<[dl_id d :=
           mkChild (length (spawned w)) (spawn_pid E) (dl_id d) downloadUrl
             (path_join E (setting_downloadFolder E) (file_name doc))
             (default 0 (book_size book) * 1024)
             (mkBookInfo (book_id book) (book_date book) (file_name doc))]>
         (activeProcesses w))
      (spawned w ++
         [mkChild (length (spawned w)) (spawn_pid E) (dl_id d) downloadUrl
            (path_join E (setting_downloadFolder E) (file_name doc))
            (default 0 (book_size book) * 1024)
            (mkBookInfo (book_id book) (book_date book) (file_name doc))])
      (signals w).
Proof. unfold started, spawnWget. simpl. by destruct (spawn_pid E). Qed.

Lemma find_started_id E book doc downloadUrl d (w : World) (i : Z) :
  i = dl_id d →
  List.find (has_id i) (downloads (started E book doc downloadUrl d w))
  = (λ r, match spawn_pid E with Some p => set_pid p r | None => r end)
      <$> List.find (has_id i) (downloads w).
Proof.
  intros ->. rewrite started_unfold. simpl. destruct (spawn_pid E) as [p|].
  - by rewrite find_update_where_id.
  - by destruct (List.find _ _).
Qed.

Lemma unique_books_eq (w : World) (x y : Download) (bookId : string) :
  unique_books w → x ∈ downloads w → y ∈ downloads w →
  dl_bookId x = Some bookId → dl_bookId y = Some bookId → x = y.
Proof.
  unfold unique_books. generalize (downloads w). intros rows.
  induction rows as [|r rows IH]; intros Hnd Hx Hy Hbx Hby.
  { by apply elem_of_nil in Hx. }
  simpl in Hnd.
  assert (Hfresh : ∀ z, z ∈ rows → dl_bookId z = dl_bookId r →
                        is_Some (dl_bookId r) → False).
  { intros z Hz Heq [b Hb]. rewrite Hb in Hnd, Heq.
    apply NoDup_cons in Hnd as [Hnotin _]. apply Hnotin.
    apply list_elem_of_omap. by exists z. }
  assert (Hnd' : NoDup (omap dl_bookId rows)).
  { destruct (dl_bookId r); [by apply NoDup_cons in Hnd as [_ ?] | done]. }
  apply elem_of_cons in Hx as [-> | Hx]; apply elem_of_cons in Hy as [-> | Hy].
  - done.
  - exfalso. apply (Hfresh y Hy); [congruence | by rewrite Hbx].
  - exfalso. apply (Hfresh x Hx); [congruence | by rewrite Hby].
  - by apply IH.
Qed.

(** C7, as stated, at the download 1 of [Scenario.orphaned downloading],
    the store that a restart of the manager leaves: the row exists with
    the [bookId] ["wiki"] and no process is registered, so
    [resumeDownload] falls back to [startDownload], which finds the row
    [downloading] and throws; the row is not updated and nothing is
    spawned. *)
Lemma resume_orphan_refused :
  List.find (has_id 1) (downloads (Scenario.orphaned downloading))
  = Some (Scenario.row_wiki downloading)
  ∧ live (activeProcesses (Scenario.orphaned downloading) !! 1) = None
  ∧ dl_bookId (Scenario.row_wiki downloading) = Some "wiki"%string
  ∧ resumeDownload (Scenario.env 3000000000) 1 (Scenario.orphaned downloading)
    = (Scenario.orphaned downloading,
       Throw "Download already in progress for: wiki").
Proof. split_and!; reflexivity. Qed.

(** C7, amended. For a download with a row: with a live process
    registered, [resumeDownload] sends SIGCONT and sets the status to
    [downloading], spawning nothing; with none registered and a [bookId]
    on the row, it is [startDownload bookId], which never adds a row here.
    In a store with one row per book, once the checks of [startDownload]
    pass: a row that is still [downloading] is refused as already in
    progress and nothing changes; a row in another status is reused, set
    [downloading] and given a new process, when the spawn gives one with a
    pid. So pausing a download with a live process and resuming it leaves
    the process registered in between, ends with status [downloading], and
    the store has as many rows as before. *)
Theorem resumeDownload_round_trip (E : Env) (downloadId : Z) (w : World)
    (d : Download) :
  List.find (has_id downloadId) (downloads w) = Some d →
  (∀ process,
     live (activeProcesses w !! downloadId) = Some process →
     ∃ w1, resumeDownload E downloadId w = (w1, Ok tt)
         ∧ List.find (has_id downloadId) (downloads w1)
           = Some (set_status downloading d)
         ∧ signals w1 = signals w ++ [(cp_serial process, SIGCONT)]
         ∧ length (downloads w1) = length (downloads w)
         ∧ spawned w1 = spawned w
         ∧ activeProcesses w1 = activeProcesses w)
  ∧ (∀ bookId,
       live (activeProcesses w !! downloadId) = None →
       dl_bookId d = Some bookId → bookId ≠ EmptyString →
       resumeDownload E downloadId w
         = (startDownload E bookId ≫= λ _, mret tt) w
       ∧ length (downloads (resumeDownload E downloadId w).1)
         = length (downloads w)
       ∧ ∀ book doc downloadUrl,
           unique_books w →
           preflight E bookId book doc downloadUrl →
           (dl_status d = downloading →
              resumeDownload E downloadId w
              = (w, Throw ("Download already in progress for: " +:+ bookId)))
           ∧ (dl_status d ≠ downloading →
              ∀ pid, spawn_pid E = Some pid →
              ∃ w1 d1,
                resumeDownload E downloadId w = (w1, Ok tt)
                ∧ List.find (has_id downloadId) (downloads w1) = Some d1
                ∧ dl_status d1 = downloading ∧ dl_error d1 = None
                ∧ dl_bookId d1 = Some bookId
                ∧ length (spawned w1) = S (length (spawned w))))
  ∧ (∀ process,
       live (activeProcesses w !! downloadId) = Some process →
       ∃ w1 w2,
         pauseDownload downloadId w = (w1, Ok tt)
         ∧ List.find (has_id downloadId) (downloads w1)
           = Some (set_status paused d)
         ∧ activeProcesses w1 !! downloadId = activeProcesses w !! downloadId
         ∧ resumeDownload E downloadId w1 = (w2, Ok tt)
         ∧ List.find (has_id downloadId) (downloads w2)
           = Some (set_status downloading d)
         ∧ length (downloads w2) = length (downloads w)
         ∧ spawned w2 = spawned w
         ∧ signals w2 = signals w ++ [(cp_serial process, SIGSTOP);
                                      (cp_serial process, SIGCONT)]).
Proof.
  intros Hd.
  apply find_some_elem_of in Hd as Hdin. destruct Hdin as [Hdin Hdid].
  unfold has_id in Hdid. apply bool_decide_eq_true in Hdid.
  split_and!.
  - intros process Hp. rewrite (resumeDownload_live E downloadId w d process)
      by done.
    eexists. split; [reflexivity|]. simpl.
    rewrite find_update_where_id, Hd, update_where_length by done. done.
  - intros bookId Hp Hb Hne.
    rewrite (resumeDownload_restart E downloadId w d bookId) by done.
    assert (∃ e, List.find (has_bookId bookId) (downloads w) = Some e)
      as [e He].
    { destruct (List.find (has_bookId bookId) (downloads w)) as [e|] eqn:He;
        [by exists e|].
      apply (find_none_elem_of _ _ _ He) in Hdin.
      unfold has_bookId in Hdin. by apply bool_decide_eq_false in Hdin. }
    split; [done|]. split.
    + pose proof (startDownload_existing_length E bookId w e He) as Hlen.
      unfold mbind, M_bind.
      by destruct (startDownload E bookId w) as [w' [r|m]].
    + intros book doc url Huniq Hpre.
      assert (e = d) as ->.
      { apply find_some_elem_of in He as [Hein Hbk].
        unfold has_bookId in Hbk. apply bool_decide_eq_true in Hbk.
        by eapply unique_books_eq. }
      split.
      { intros Hst. unfold mbind, M_bind.
        by rewrite (startDownload_in_progress _ _ _ _ _ _ _ Hpre He Hst). }
      intros Hst pid Hpid.
      destruct (startDownload_reuse E bookId book doc url w d)
        as (d' & Hd' & Hrun); try done.
      rewrite (spawn_outcome_some _ _ _ Hpid) in Hrun.
      rewrite Hdid, Hd in Hd'. injection Hd' as <-.
      unfold mbind, M_bind. rewrite Hrun. run.
      eexists _, _. split; [reflexivity|].
      destruct (started_process E book doc url (set_downloading (now E) d)
                  (with_downloads
                     (update_where (has_id (dl_id d))
                                   (set_downloading (now E))) w))
        as (Hsp & _).
      rewrite Hsp, length_app, find_started_id by done. simpl.
      rewrite Hdid, find_update_where_id, Hd by done. simpl.
      split; [reflexivity|]. rewrite Hpid. split_and!; try done; lia.
  - intros process Hp.
    rewrite (pauseDownload_live downloadId w process) by done.
    eexists _, _. split; [reflexivity|]. simpl.
    rewrite find_update_where_id, Hd by done. simpl.
    split; [done|]. split; [done|].
    erewrite resumeDownload_live; simpl.
    2:{ by rewrite find_update_where_id, Hd. }
    2:{ done. }
    split; [reflexivity|]. simpl.
    rewrite find_update_where_id by done.
    rewrite find_update_where_id, Hd by done. simpl.
    rewrite !update_where_length, <- app_assoc. simpl.
    split_and!; done.
Qed.

Lemma resumeDownload_round_trip_witness :
  (∃ w1 w2,
     pauseDownload 1 (Scenario.running downloading) = (w1, Ok tt)
     ∧ List.find (has_id 1) (downloads w1) = Some (Scenario.row_wiki paused)
     ∧ resumeDownload (Scenario.env 0) 1 w1 = (w2, Ok tt)
     ∧ List.find (has_id 1) (downloads w2) = Some (Scenario.row_wiki downloading)
     ∧ length (downloads w2) = 1%nat)
  ∧ (∃ w1 d1,
       resumeDownload (Scenario.env 3000000000) 1 (Scenario.orphaned paused)
         = (w1, Ok tt)
       ∧ List.find (has_id 1) (downloads w1) = Some d1
       ∧ dl_status d1 = downloading
       ∧ length (spawned w1) = 1%nat).
Proof.
  split.
  - destruct (resumeDownload_round_trip (Scenario.env 0) 1
                (Scenario.running downloading) (Scenario.row_wiki downloading)
                eq_refl) as (_ & _ & Htrip).
    destruct (Htrip Scenario.wget_wiki eq_refl)
      as (w1 & w2 & Hpause & Hrow1 & _ & Hresume & Hrow2 & Hlen & _).
    exists w1, w2. split; [exact Hpause|]. split; [exact Hrow1|].
    split; [exact Hresume|]. split; [exact Hrow2 | exact Hlen].
  - destruct (resumeDownload_round_trip (Scenario.env 3000000000) 1
                (Scenario.orphaned paused) (Scenario.row_wiki paused)
                eq_refl) as (_ & Hrestart & _).
    destruct (Hrestart "wiki"%string eq_refl eq_refl ltac:(discriminate))
      as (_ & _ & Hreuse).
    destruct (Hreuse Scenario.wiki (mkMeta4 "wiki.zim" Scenario.mirrors)
                "http://mirror-a/wiki.zim"%string) as [_ Hother].
    + apply NoDup_singleton.
    + unfold preflight. split_and!; try reflexivity.
      exists 3000000000. split; reflexivity.
    + destruct (Hother ltac:(discriminate) 4242 eq_refl)
        as (w1 & d1 & Hrun & Hrow & Hst & _ & _ & Hsp).
      exists w1, d1. split; [exact Hrun|]. split; [exact Hrow|].
      split; [exact Hst | exact Hsp].
Defined.

(** ** A spawn that fails *)

(** With its checks passed and no pid from the spawn, [startDownload]
    throws after it has written the row and registered the process. *)
Lemma startDownload_unspawned (E : Env) (bookId : string) (book : CatalogBook)
    (doc : Meta4File) (downloadUrl : string) (w : World) :
  preflight E bookId book doc downloadUrl →
  spawn_pid E = None →
  dl_status <$> List.find (has_bookId bookId) (downloads w) ≠ Some downloading →
  ∃ w' process r,
    startDownload E bookId w = (w', Throw "No values to set")
    ∧ spawned w' = spawned w ++ [process]
    ∧ cp_pid process = None
    ∧ activeProcesses w' = <[dl_id r := process]> (activeProcesses w)
    ∧ r ∈ downloads w'
    ∧ dl_bookId r = Some bookId
    ∧ dl_status r = downloading
    ∧ signals w' = signals w.
Proof.
  intros Hpre Hpid Hst.
  destruct (List.find (has_bookId bookId) (downloads w)) as [e|] eqn:He.
  - destruct (startDownload_reuse E bookId book doc downloadUrl w e)
      as (d & Hd & Hrun); [done | done | by intros Hs; rewrite <- Hs in Hst |].
    apply find_some_elem_of in Hd as [_ Hid].
    unfold has_id in Hid. apply bool_decide_eq_true in Hid.
    apply find_some_elem_of in He as [Hin Hbk].
    unfold has_bookId in Hbk. apply bool_decide_eq_true in Hbk.
    unfold spawn_outcome in Hrun. rewrite Hpid in Hrun.
    eexists _, _, (set_downloading (now E) e). split; [exact Hrun|].
    rewrite started_unfold, Hpid. simpl. rewrite Hid. split_and!; try done.
    apply elem_of_update_where_hit; [done|].
    unfold has_id. by apply bool_decide_eq_true.
  - pose proof (startDownload_insert E bookId book doc downloadUrl w Hpre He)
      as Hrun.
    unfold spawn_outcome in Hrun. rewrite Hpid in Hrun.
    eexists _, _, (fresh_row E bookId book doc _). split; [exact Hrun|].
    rewrite started_unfold, Hpid. simpl. split_and!; try done.
    apply elem_of_app. right. apply list_elem_of_here.
Qed.

(** C8. For a process whose handlers are attached: on a non-zero exit (a
    [null] code included) the [close] handler leaves the row as it is,
    status [paused], exactly when the persisted status at that moment is
    [paused], and otherwise marks the row [failed] with the error
    ["wget exited with code <code>"]; the [error] handler marks the row
    [failed] with the error's message whatever the status was; both remove
    the process from the table. The error of a spawn that fails does not
    reach the handler: [spawnWget] has thrown [No values to set] before
    attaching it, so the row that [startDownload] wrote for the book stays
    [downloading] with the process registered, whatever error the process
    then emits. *)
Theorem exit_reconciliation (E : Env) (wget : ChildProcess) (code : option Z)
    (message : string) (w : World) (d : Download) :
  listening wget = true →
  code ≠ Some 0 →
  List.find (has_id (cp_downloadId wget)) (downloads w) = Some d →
  (∃ w1 d1,
     on_close E wget code w = (w1, Ok tt)
     ∧ List.find (has_id (cp_downloadId wget)) (downloads w1) = Some d1
     ∧ activeProcesses w1 !! cp_downloadId wget = None
     ∧ (dl_status d1 = paused ↔ dl_status d = paused)
     ∧ (dl_status d = paused → downloads w1 = downloads w)
     ∧ (dl_status d ≠ paused →
        d1 = set_failed ("wget exited with code " +:+ show_code code) d
        ∧ dl_status d1 = failed
        ∧ dl_error d1 = Some ("wget exited with code " +:+ show_code code)))
  ∧ (∃ w2,
       emit_error wget message w = (w2, Ok tt)
       ∧ List.find (has_id (cp_downloadId wget)) (downloads w2)
         = Some (set_failed message d)
       ∧ dl_status (set_failed message d) = failed
       ∧ dl_error (set_failed message d) = Some message
       ∧ activeProcesses w2 !! cp_downloadId wget = None)
  ∧ (∀ E' bookId book doc downloadUrl w0,
       preflight E' bookId book doc downloadUrl →
       spawn_pid E' = None →
       dl_status <$> List.find (has_bookId bookId) (downloads w0)
         ≠ Some downloading →
       ∃ w1 process r,
         startDownload E' bookId w0 = (w1, Throw "No values to set")
         ∧ activeProcesses w1 !! dl_id r = Some process
         ∧ listening process = false
         ∧ r ∈ downloads w1
         ∧ dl_bookId r = Some bookId
         ∧ dl_status r = downloading
         ∧ ∀ message', emit_error process message' w1 = (w1, Throw message')).
Proof.
  intros Hlisten Hcode Hd. split; [|split].
  - rewrite on_close_nonzero by done. rewrite Hd. simpl.
    destruct (decide (dl_status d = paused)) as [Hp|Hp].
    + rewrite bool_decide_eq_false_2 by (rewrite Hp; auto).
      eexists _, d. split; [reflexivity|]. simpl.
      rewrite lookup_delete_eq. split_and!; done.
    + rewrite bool_decide_eq_true_2 by congruence.
      eexists _, _. split; [reflexivity|]. simpl.
      rewrite lookup_delete_eq.
      rewrite find_update_where_id, Hd by done. simpl.
      split_and!; done.
  - unfold emit_error. rewrite Hlisten. run.
    eexists. split; [reflexivity|]. simpl.
    rewrite find_update_where_id, Hd by done. rewrite lookup_delete_eq. done.
  - intros E' bookId book doc url w0 Hpre Hpid Hst.
    destruct (startDownload_unspawned E' bookId book doc url w0 Hpre Hpid Hst)
      as (w1 & process & r & Hrun & _ & Hnone & Hact & Hin & Hbk & Hrow & _).
    assert (Hdeaf : listening process = false).
    { unfold listening. rewrite Hnone. apply bool_decide_eq_false_2.
      by intros [? ?]. }
    exists w1, process, r. split; [exact Hrun|].
    rewrite Hact, lookup_insert_eq. split_and!; try done.
    intros message'. unfold emit_error. by rewrite Hdeaf.
Qed.

Lemma exit_reconciliation_witness :
  (∃ w1, on_close (Scenario.env 0) Scenario.wget_wiki (Some 8)
           (Scenario.running paused) = (w1, Ok tt)
       ∧ downloads w1 = [Scenario.row_wiki paused])
  ∧ (∃ w1 d1, on_close (Scenario.env 0) Scenario.wget_wiki None
                (Scenario.running downloading) = (w1, Ok tt)
       ∧ List.find (has_id 1) (downloads w1) = Some d1
       ∧ dl_status d1 = failed
       ∧ dl_error d1 = Some "wget exited with code null"%string)
  ∧ (∃ w2, emit_error Scenario.wget_wiki "read ECONNRESET"
             (Scenario.running paused) = (w2, Ok tt)
       ∧ List.find (has_id 1) (downloads w2)
         = Some (set_failed "read ECONNRESET" (Scenario.row_wiki paused)))
  ∧ (∃ w1 process r,
       startDownload (Scenario.env_no_wget 3000000000) "wiki" Scenario.empty
       = (w1, Throw "No values to set")
       ∧ activeProcesses w1 !! dl_id r = Some process
       ∧ r ∈ downloads w1
       ∧ dl_status r = downloading
       ∧ emit_error process "spawn wget ENOENT" w1
         = (w1, Throw "spawn wget ENOENT")).
Proof.
  split; [|split; [|split]].
  - destruct (exit_reconciliation (Scenario.env 0) Scenario.wget_wiki (Some 8)
                "" (Scenario.running paused) (Scenario.row_wiki paused)
                eq_refl ltac:(discriminate) eq_refl)
      as [(w1 & d1 & Hrun & _ & _ & _ & Hkeep & _) _].
    exists w1. split; [exact Hrun | exact (Hkeep eq_refl)].
  - destruct (exit_reconciliation (Scenario.env 0) Scenario.wget_wiki None
                "" (Scenario.running downloading) (Scenario.row_wiki downloading)
                eq_refl ltac:(discriminate) eq_refl)
      as [(w1 & d1 & Hrun & Hfind & _ & _ & _ & Hfail) _].
    exists w1, d1. split; [exact Hrun|]. split; [exact Hfind|].
    destruct (Hfail ltac:(discriminate)) as (_ & Hs & He).
    split; [exact Hs | exact He].
  - destruct (exit_reconciliation (Scenario.env 0) Scenario.wget_wiki (Some 8)
                "read ECONNRESET" (Scenario.running paused)
                (Scenario.row_wiki paused) eq_refl ltac:(discriminate) eq_refl)
      as (_ & (w2 & Hrun & Hfind & _) & _).
    exists w2. split; [exact Hrun | exact Hfind].
  - destruct (exit_reconciliation (Scenario.env 0) Scenario.wget_wiki (Some 8)
                "" (Scenario.running paused) (Scenario.row_wiki paused)
                eq_refl ltac:(discriminate) eq_refl)
      as (_ & _ & Hspawn).
    destruct (Hspawn (Scenario.env_no_wget 3000000000) "wiki"%string
                Scenario.wiki (mkMeta4 "wiki.zim" Scenario.mirrors)
                "http://mirror-a/wiki.zim"%string Scenario.empty)
      as (w1 & process & r & Hrun & Hact & _ & Hin & _ & Hst & Hdeaf).
    + unfold preflight. split_and!; try reflexivity.
      exists 3000000000. split; reflexivity.
    + reflexivity.
    + discriminate.
    + exists w1, process, r. split; [exact Hrun|]. split; [exact Hact|].
      split; [exact Hin|]. split; [exact Hst | apply Hdeaf].
Defined.

(** ** One row per book *)

Lemma omap_update_where (p : Download → bool) (f : Download → Download)
    (rows : list Download) :
  (∀ r, dl_bookId (f r) = dl_bookId r) →
  omap dl_bookId (update_where p f rows) = omap dl_bookId rows.
Proof.
  intros Hf. induction rows as [|r rows IH]; [done|].
  unfold update_where in *. rewrite fmap_cons.
  change (omap dl_bookId (?x :: ?l))
    with (match dl_bookId x with
          | Some b => b :: omap dl_bookId l
          | None => omap dl_bookId l
          end).
  rewrite IH. destruct (p r); [by rewrite Hf | done].
Qed.

Lemma omap_started E book doc downloadUrl d (w : World) :
  omap dl_bookId (downloads (started E book doc downloadUrl d w))
  = omap dl_bookId (downloads w).
Proof.
  rewrite started_unfold. simpl. destruct (spawn_pid E); [|done].
  by apply omap_update_where.
Qed.

Lemma NoDup_omap_filter (q : Download → bool) (rows : list Download) :
  NoDup (omap dl_bookId rows) → NoDup (omap dl_bookId (List.filter q rows)).
Proof.
  induction rows as [|r rows IH]; [done|]. simpl. intros Hnd.
  assert (Hnd' : NoDup (omap dl_bookId rows)).
  { destruct (dl_bookId r); [by apply NoDup_cons in Hnd as [_ ?] | done]. }
  destruct (q r); [|by apply IH]. simpl.
  destruct (dl_bookId r) as [b|]; [|by apply IH].
  apply NoDup_cons in Hnd as [Hnotin _]. apply NoDup_cons. split; [|by apply IH].
  intros (z & Hz & Hb)%list_elem_of_omap. apply Hnotin.
  apply list_elem_of_omap. exists z. split; [|done].
  apply list_elem_of_In in Hz. apply filter_In in Hz as [Hz _].
  by apply list_elem_of_In.
Qed.

Lemma startDownload_unique_books (E : Env) (bookId : string) (w : World) :
  unique_books w → unique_books (startDownload E bookId w).1.
Proof.
  unfold unique_books. intros Hnd.
  destruct (startDownload_cases E bookId w)
    as [[m ->] | (book & doc & url & _ &
                  [(e & d & _ & _ & _ & ->) | [Hnone ->]])]; cbn [fst].
  - done.
  - rewrite omap_started. simpl. by rewrite omap_update_where.
  - rewrite omap_started. simpl. rewrite omap_app. simpl.
    apply NoDup_app. split_and!; [done| |apply NoDup_singleton].
    intros b (z & Hz & Hb)%list_elem_of_omap ->%list_elem_of_singleton.
    apply (find_none_elem_of _ _ _ Hnone) in Hz.
    unfold has_bookId in Hz. by apply bool_decide_eq_false in Hz.
Qed.

Lemma cancelDownload_unique_books (downloadId : Z) (w : World) :
  unique_books w → unique_books (cancelDownload downloadId w).1.
Proof.
  unfold unique_books. rewrite cancelDownload_run. simpl.
  by rewrite omap_update_where.
Qed.

Lemma step_unique_books (w : World) (ev : Env * Event) :
  unique_books w → unique_books (step w ev).
Proof.
  destruct ev as [E [bookId|downloadId|downloadId|downloadId|downloadId
                     |downloadId|wget elapsed|wget code|wget message]];
    unfold step; cbn [fst snd]; intros Hnd.
  - by apply startDownload_unique_books.
  - destruct (live (activeProcesses w !! downloadId)) as [process|] eqn:Hp.
    + rewrite (pauseDownload_live _ _ process) by done.
      unfold unique_books. simpl. by rewrite omap_update_where.
    + by rewrite pauseDownload_not_live.
  - destruct (List.find (has_id downloadId) (downloads w)) as [d|] eqn:Hd.
    2:{ unfold resumeDownload. run. by rewrite Hd. }
    destruct (live (activeProcesses w !! downloadId)) as [process|] eqn:Hp.
    { rewrite (resumeDownload_live _ _ _ d process) by done.
      unfold unique_books. simpl. by rewrite omap_update_where. }
    destruct (truthy (dl_bookId d)) eqn:Hb.
    + destruct (dl_bookId d) as [[|c b]|] eqn:Hbook; try done.
      rewrite (resumeDownload_restart _ _ _ d (String c b)) by done.
      pose proof (startDownload_unique_books E (String c b) w Hnd) as Hs.
      unfold mbind, M_bind.
      by destruct (startDownload E (String c b) w) as [w' [r|m]].
    + unfold resumeDownload. run. by rewrite Hd, Hp, Hb.
  - by apply cancelDownload_unique_books.
  - unfold deleteDownload, mbind, M_bind.
    pose proof (cancelDownload_unique_books downloadId w Hnd) as Hc.
    rewrite cancelDownload_run in *. run.
    unfold unique_books in *. simpl in *. by apply NoDup_omap_filter.
  - unfold getDownloadProgress. run.
    by destruct (List.find (has_id downloadId) (downloads w)).
  - unfold on_data. destruct (500 <? elapsed); [|done].
    destruct (stat_size E (cp_outputPath wget)); [|done].
    run. unfold unique_books. simpl. by rewrite omap_update_where.
  - destruct (decide (code = Some 0)) as [-> | Hcode].
    + destruct (on_close_zero E wget w) as (w1 & -> & Hrows & _).
      unfold unique_books. simpl. rewrite Hrows.
      by rewrite omap_update_where.
    + rewrite on_close_nonzero by done. unfold unique_books. simpl.
      case_bool_decide; [by rewrite omap_update_where | done].
  - run. unfold unique_books. simpl. by rewrite omap_update_where.
Qed.

Lemma run_events_unique_books (evs : list (Env * Event)) (w : World) :
  unique_books w → unique_books (run_events evs w).
Proof.
  unfold run_events. revert w.
  induction evs as [|ev evs IH]; intros w Hnd; simpl; [done|].
  by apply IH, step_unique_books.
Qed.

(** C5, as the specification states it, fails: after two books whose
    metalink documents name the same file are started, the store holds two
    rows, both [downloading], with the same [filePath]. *)
Lemma shared_filePath :
  dl_bookId <$> downloads Scenario.both_started
    = [Some "wiki"; Some "wiki_mini"]%string
  ∧ dl_filePath <$> downloads Scenario.both_started
    = [Some "/zim/wiki.zim"; Some "/zim/wiki.zim"]%string
  ∧ dl_status <$> downloads Scenario.both_started = [downloading; downloading]
  ∧ cp_outputPath <$> spawned Scenario.both_started
    = ["/zim/wiki.zim"; "/zim/wiki.zim"]%string.
Proof. split_and!; reflexivity. Qed.

(** C5, amended. What the store keeps unique is the book, not the path: no
    sequence of operations and process events makes two rows with the same
    [bookId], since [startDownload] inserts a row only for a book without
    one and nothing else inserts. The [filePath] of the row it inserts,
    once its checks have passed, is [join(downloadFolder, fileName)] and is
    not compared with the paths of the rows already there, so two books
    whose metadata name the same file share a path. *)
Theorem store_uniqueness (evs : list (Env * Event)) (w : World) :
  unique_books w →
  unique_books (run_events evs w)
  ∧ (∀ x y bookId,
       x ∈ downloads (run_events evs w) → y ∈ downloads (run_events evs w) →
       dl_bookId x = Some bookId → dl_bookId y = Some bookId → x = y)
  ∧ ∀ E bookId book doc downloadUrl,
      preflight E bookId book doc downloadUrl →
      List.find (has_bookId bookId) (downloads w) = None →
      length (downloads (startDownload E bookId w).1) = S (length (downloads w))
      ∧ ∃ r, r ∈ downloads (startDownload E bookId w).1
           ∧ dl_bookId r = Some bookId
           ∧ dl_filePath r
             = Some (path_join E (setting_downloadFolder E) (file_name doc)).
Proof.
  intros Hnd.
  pose proof (run_events_unique_books evs w Hnd) as Hnd'.
  split; [done|]. split.
  - intros x y bookId. by apply unique_books_eq.
  - intros E bookId book doc url Hpre Hnone.
    rewrite (startDownload_insert E bookId book doc url w) by done.
    cbn [fst]. rewrite started_length. simpl. rewrite length_app. simpl.
    split; [lia|]. rewrite started_unfold. simpl.
    destruct (spawn_pid E) as [p|].
    + eexists (set_pid p (fresh_row E bookId book doc _)).
      split; [|done].
      unfold update_where. rewrite fmap_app. apply elem_of_app. right.
      simpl. unfold has_id at 1. simpl. rewrite bool_decide_eq_true_2 by done.
      apply list_elem_of_here.
    + eexists. split; [apply elem_of_app; right; apply list_elem_of_here|done].
Qed.

Lemma store_uniqueness_witness :
  unique_books Scenario.both_started
  ∧ length (downloads (startDownload (Scenario.env 3000000000) "wiki_mini"
                                     Scenario.empty).1) = 1%nat
  ∧ ∃ r, r ∈ downloads (startDownload (Scenario.env 3000000000) "wiki_mini"
                                      Scenario.empty).1
       ∧ dl_bookId r = Some "wiki_mini"%string
       ∧ dl_filePath r = Some "/zim/wiki.zim"%string.
Proof.
  destruct (store_uniqueness
              [(Scenario.env 3000000000, Start "wiki");
               (Scenario.env 3000000000, Start "wiki_mini")]
              Scenario.empty (NoDup_nil_2 : unique_books Scenario.empty))
    as (Hnd & _ & Hinsert).
  split; [exact Hnd|].
  apply (Hinsert (Scenario.env 3000000000) "wiki_mini"%string Scenario.wiki_mini
           (mkMeta4 "wiki.zim" (UrlString "http://mirror-a/wiki_mini.zim"))
           "http://mirror-a/wiki_mini.zim"%string).
  - unfold preflight. split_and!; try reflexivity.
    exists 3000000000. split; reflexivity.
  - reflexivity.
Defined.

(** * Further properties of the code *)

(** ** More on rows and updates *)

Lemma find_update_where {A} (p q : A → bool) (f : A → A) (rows : list A) :
  (∀ r, q (f r) = q r) →
  List.find q (update_where p f rows)
  = (λ r, if p r then f r else r) <$> List.find q rows.
Proof.
  intros Hq. unfold update_where.
  induction rows as [|r rows IH]; [done|]. rewrite fmap_cons. simpl.
  destruct (p r) eqn:Hp; rewrite ?Hq; destruct (q r); simpl;
    rewrite ?Hp; done.
Qed.

Lemma find_app_none {A} (q : A → bool) (l1 l2 : list A) :
  List.find q l1 = None → List.find q (l1 ++ l2) = List.find q l2.
Proof.
  induction l1 as [|x l1 IH]; [done|]. simpl.
  destruct (q x); [done | exact IH].
Qed.

Lemma ids_update_where (p : Download → bool) (f : Download → Download)
    (rows : list Download) :
  (∀ r, dl_id (f r) = dl_id r) →
  dl_id <$> update_where p f rows = dl_id <$> rows.
Proof.
  intros Hf. unfold update_where. rewrite <- list_fmap_compose.
  apply list_fmap_ext. intros _ r _. simpl. by destruct (p r).
Qed.

Lemma ids_started E book doc downloadUrl d (w : World) :
  dl_id <$> downloads (started E book doc downloadUrl d w)
  = dl_id <$> downloads w.
Proof.
  rewrite started_unfold. simpl. destruct (spawn_pid E); [|done].
  by apply ids_update_where.
Qed.

Lemma localZims_started E book doc downloadUrl d (w : World) :
  localZims (started E book doc downloadUrl d w) = localZims w.
Proof. by rewrite started_unfold. Qed.


Lemma find_started E book doc downloadUrl d (w : World) (q : Download → bool) :
  (∀ p r, q (set_pid p r) = q r) →
  List.find q (downloads (started E book doc downloadUrl d w))
  = (λ r, match spawn_pid E with
          | Some p => if has_id (dl_id d) r then set_pid p r else r
          | None => r
          end) <$> List.find q (downloads w).
Proof.
  intros Hq. rewrite started_unfold. simpl.
  destruct (spawn_pid E) as [p|].
  - by rewrite find_update_where.
  - by destruct (List.find _ _).
Qed.

(** ** Starting a download: failure and success *)





Lemma startDownload_ok_find (E : Env) (bookId : string) (w w' : World)
    (d : Download) :
  startDownload E bookId w = (w', Ok d) →
  ∃ r, List.find (has_bookId bookId) (downloads w') = Some r
     ∧ dl_id r = dl_id d
     ∧ dl_bookId r = Some bookId
     ∧ dl_status r = downloading
     ∧ dl_error r = None.
Proof.
  intros Hrun.
  destruct (startDownload_cases E bookId w)
    as [[m Hm] | (book & doc & url & Hpre &
                  [(e & d0 & He & Hst & Hd0 & Hm) | [Hnone Hm]])];
    rewrite Hm in Hrun; [discriminate| |].
  - injection Hrun as <- Hout. apply spawn_outcome_ok in Hout as ->.
    apply find_some_elem_of in Hd0 as [_ Hid0].
    unfold has_id in Hid0. apply bool_decide_eq_true in Hid0.
    apply find_some_elem_of in He as Hbk. destruct Hbk as [_ Hbk].
    rewrite find_started by done. simpl.
    rewrite find_update_where by (intros; reflexivity). rewrite He. simpl.
    assert (Hself : has_id (dl_id e) e = true)
      by (unfold has_id; by apply bool_decide_eq_true).
    rewrite Hself.
    eexists. split; [reflexivity|].
    unfold has_bookId in Hbk. apply bool_decide_eq_true in Hbk.
    rewrite ?Hid0.
    destruct (spawn_pid E); [destruct (has_id _ (set_downloading _ _))|];
      simpl; done.
  - injection Hrun as <- Hout. apply spawn_outcome_ok in Hout as ->.
    rewrite find_started by done. simpl.
    rewrite find_app_none by done. simpl.
    unfold has_bookId at 1. simpl. rewrite bool_decide_eq_true_2 by done.
    eexists. split; [reflexivity|].
    destruct (spawn_pid E); [destruct (has_id _ _)|]; done.
Qed.

(** X3. After a start that returned, looking the book up finds the row
    that was returned: same id, the book's id, status [downloading]. *)
Theorem start_then_lookup (E : Env) (bookId : string) (w w' : World)
    (d : Download) :
  startDownload E bookId w = (w', Ok d) →
  ∃ r, getDownloadByBookId bookId w' = (w', Ok (Some r))
     ∧ dl_id r = dl_id d
     ∧ dl_bookId r = Some bookId
     ∧ dl_status r = downloading
     ∧ dl_error r = None.
Proof.
  intros Hrun. unfold getDownloadByBookId, select_download.
  destruct (startDownload_ok_find E bookId w w' d Hrun) as (r & -> & Hr).
  by exists r.
Qed.

Lemma start_then_lookup_witness :
  ∃ w' d r,
    startDownload (Scenario.env 3000000000) "wiki" (Scenario.orphaned failed)
      = (w', Ok d)
    ∧ getDownloadByBookId "wiki" w' = (w', Ok (Some r))
    ∧ dl_id r = dl_id d ∧ dl_status r = downloading.
Proof.
  destruct (startDownload (Scenario.env 3000000000) "wiki"
                          (Scenario.orphaned failed))
    as [w' [d|msg]] eqn:Hrun.
  - destruct (start_then_lookup _ _ _ _ _ Hrun) as (r & Hget & Hid & _ & Hst & _).
    exists w', d, r. split; [reflexivity|]. by split_and!.
  - vm_compute in Hrun. discriminate.
Defined.

(** ** The mirror resolver, whatever the priorities *)

(** X4. On an array of URLs the selection throws exactly when the array is
    empty; otherwise it returns the URL of one of the listed entries, also
    when some priority attribute is not a number. *)
Theorem select_url_listed (us : list UrlEntry) :
  (us = [] → ∃ msg, select_url (UrlArray us) = Throw msg)
  ∧ (us ≠ [] →
     ∃ u, u ∈ us ∧ select_url (UrlArray us) = Ok (c_url (to_candidate u))).
Proof.
  split.
  - intros ->. by eexists.
  - intros Hne. unfold select_url.
    pose proof (array_sort_perm by_priority (to_candidate <$> us)) as Hperm.
    destruct (array_sort by_priority (to_candidate <$> us)) as [|c rest].
    + apply Permutation_nil_l in Hperm. by destruct us.
    + assert (Hc : c ∈ to_candidate <$> us)
        by (rewrite <- Hperm; apply list_elem_of_here).
      apply list_elem_of_fmap in Hc as (u & -> & Hu). by exists u.
Qed.

Lemma select_url_listed_witness :
  ∃ u, u ∈ [UrlNode "http://mirror-a/wiki.zim" (Some "first");
            UrlNode "http://mirror-b/wiki.zim" (Some "2")]
     ∧ select_url (UrlArray [UrlNode "http://mirror-a/wiki.zim" (Some "first");
                             UrlNode "http://mirror-b/wiki.zim" (Some "2")])
       = Ok (c_url (to_candidate u)).
Proof.
  apply (select_url_listed
           [UrlNode "http://mirror-a/wiki.zim" (Some "first");
            UrlNode "http://mirror-b/wiki.zim" (Some "2")]).
  discriminate.
Defined.

(** X5. [resolveMeta4Url] reads and never writes. It returns exactly when
    the response is OK and the document lists a URL; the file name it
    returns is the one the document declares, whatever the URL chosen, and
    a response that is not OK throws ["Failed to fetch meta4: "] followed
    by the status text. *)
Theorem resolveMeta4Url_result (E : Env) (meta4Url : string) (w : World) :
  (∃ r, resolveMeta4Url E meta4Url w = (w, r))
  ∧ (∀ w' downloadUrl fileName,
       resolveMeta4Url E meta4Url w = (w', Ok (downloadUrl, fileName)) ↔
       w' = w
       ∧ ∃ doc, fetch_meta4 E meta4Url = FetchOk doc
              ∧ select_url (file_url doc) = Ok downloadUrl
              ∧ fileName = file_name doc)
  ∧ (∀ statusText,
       fetch_meta4 E meta4Url = FetchNotOk statusText →
       resolveMeta4Url E meta4Url w
         = (w, Throw ("Failed to fetch meta4: " +:+ statusText))).
Proof.
  unfold resolveMeta4Url. split_and!.
  - destruct (fetch_meta4 E meta4Url) as [doc| |]; run; try by eexists.
    destruct (select_url (file_url doc)); by eexists.
  - intros w' downloadUrl fileName.
    destruct (fetch_meta4 E meta4Url) as [doc| |]; run.
    + destruct (select_url (file_url doc)) as [u|m] eqn:Hsel; split.
      * intros [= <- <- <-]. split; [done|]. by exists doc.
      * intros [-> (doc' & [= <-] & Hsel' & ->)]. congruence.
      * intros [=].
      * intros [_ (doc' & [= <-] & Hsel' & _)]. congruence.
    + split; [intros [=] | intros [_ (doc' & [=] & _)]].
    + split; [intros [=] | intros [_ (doc' & [=] & _)]].
  - intros statusText ->. done.
Qed.

Lemma resolveMeta4Url_result_witness :
  resolveMeta4Url (Scenario.env 0) "http://cat/missing.meta4" Scenario.empty
    = (Scenario.empty, Throw "Failed to fetch meta4: Not Found").
Proof.
  destruct (resolveMeta4Url_result (Scenario.env 0) "http://cat/missing.meta4"
              Scenario.empty) as (_ & _ & Hfail).
  exact (Hfail "Not Found"%string eq_refl).
Defined.

(** ** Pause, resume, delete: edges *)

(** X6. [pauseDownload] never throws and never touches the process table,
    the spawn log, the ids or the books of the rows. Without a live process
    under the id it does nothing at all; with one it sends SIGSTOP to it
    and sets the rows of that id [paused], whatever their status was, the
    other rows staying as they are. *)
Theorem pauseDownload_effect (downloadId : Z) (w : World) :
  ∃ w1, pauseDownload downloadId w = (w1, Ok tt)
      ∧ activeProcesses w1 = activeProcesses w
      ∧ spawned w1 = spawned w
      ∧ localZims w1 = localZims w
      ∧ dl_id <$> downloads w1 = dl_id <$> downloads w
      ∧ (live (activeProcesses w !! downloadId) = None → w1 = w)
      ∧ (∀ process,
           live (activeProcesses w !! downloadId) = Some process →
           signals w1 = signals w ++ [(cp_serial process, SIGSTOP)]
           ∧ downloads w1
             = update_where (has_id downloadId) (set_status paused) (downloads w)
           ∧ ∀ d, List.find (has_id downloadId) (downloads w) = Some d →
                  List.find (has_id downloadId) (downloads w1)
                  = Some (set_status paused d)).
Proof.
  destruct (live (activeProcesses w !! downloadId)) as [process|] eqn:Hp.
  - rewrite (pauseDownload_live _ _ process) by done.
    eexists. split; [reflexivity|]. simpl.
    rewrite ids_update_where by done. split_and!; try done.
    intros process' [= <-]. split_and!; try done.
    intros d Hd. by rewrite find_update_where_id, Hd.
  - rewrite pauseDownload_not_live by done. exists w. split_and!; done.
Qed.

Lemma pauseDownload_effect_witness :
  pauseDownload 1 (Scenario.orphaned downloading)
    = (Scenario.orphaned downloading, Ok tt)
  ∧ ∃ w1, pauseDownload 1 (Scenario.running downloading) = (w1, Ok tt)
        ∧ signals w1 = [(0%nat, SIGSTOP)]
        ∧ List.find (has_id 1) (downloads w1) = Some (Scenario.row_wiki paused).
Proof.
  split.
  - destruct (pauseDownload_effect 1 (Scenario.orphaned downloading))
      as (w1 & Hrun & _ & _ & _ & _ & Hnoop & _).
    by rewrite <- (Hnoop eq_refl) at 2.
  - destruct (pauseDownload_effect 1 (Scenario.running downloading))
      as (w1 & Hrun & _ & _ & _ & _ & _ & Hlive).
    destruct (Hlive Scenario.wget_wiki eq_refl) as (Hsig & _ & Hrow).
    exists w1. split; [exact Hrun|]. split; [exact Hsig|].
    exact (Hrow (Scenario.row_wiki downloading) eq_refl).
Defined.



Lemma filter_update_where (p : Download → bool) (f : Download → Download)
    (rows : list Download) :
  (∀ r, p (f r) = p r) →
  List.filter (λ d, negb (p d)) (update_where p f rows)
  = List.filter (λ d, negb (p d)) rows.
Proof.
  intros Hp. unfold update_where.
  induction rows as [|r rows IH]; [done|]. rewrite fmap_cons. simpl.
  destruct (p r) eqn:Hr; rewrite ?Hp, Hr; simpl; by rewrite IH.
Qed.

Lemma deleteDownload_run (downloadId : Z) (w : World) :
  deleteDownload downloadId w =
    (mkWorld
       (List.filter (λ d, negb (has_id downloadId d)) (downloads w))
       (downloads_seq w) (localZims w) (localZims_seq w)
       (delete downloadId (activeProcesses w)) (spawned w)
       (match activeProcesses w !! downloadId with
        | Some process => signals w ++ [(cp_serial process, SIGTERM)]
        | None => signals w
        end),
     Ok tt).
Proof.
  unfold deleteDownload, mbind, M_bind. rewrite cancelDownload_run. run.
  unfold with_downloads. simpl. by rewrite filter_update_where.
Qed.

(** X8. [deleteDownload] never throws. Afterwards the store holds the rows
    it held, in their order and unchanged, except those of the given id,
    which are gone; no process is registered under the id, a registered
    one having been sent SIGTERM first; and a progress query for the id
    answers [null]. *)
Theorem deleteDownload_effect (E : Env) (downloadId : Z) (w : World) :
  ∃ w1, deleteDownload downloadId w = (w1, Ok tt)
      ∧ downloads w1
        = List.filter (λ d, negb (has_id downloadId d)) (downloads w)
      ∧ (∀ d, d ∈ downloads w1 ↔ d ∈ downloads w ∧ dl_id d ≠ downloadId)
      ∧ activeProcesses w1 = delete downloadId (activeProcesses w)
      ∧ (∀ process,
           activeProcesses w !! downloadId = Some process →
           signals w1 = signals w ++ [(cp_serial process, SIGTERM)])
      ∧ (activeProcesses w !! downloadId = None → signals w1 = signals w)
      ∧ spawned w1 = spawned w
      ∧ getDownloadProgress E downloadId w1 = (w1, Ok None)
      ∧ deleteDownload downloadId w1 = (w1, Ok tt).
Proof.
  eexists. split; [apply deleteDownload_run|]. simpl.
  split; [done|]. split.
  { intros d. rewrite list_elem_of_In, filter_In, <- list_elem_of_In.
    unfold has_id. rewrite negb_true_iff, bool_decide_eq_false. done. }
  split; [done|]. split; [by intros process ->|]. split; [by intros ->|].
  split; [done|]. split.
  - unfold getDownloadProgress. run.
    destruct (List.find _ _) as [d|] eqn:Hd; [|done].
    apply find_some in Hd as [Hin Hid]. apply filter_In in Hin as [_ Hneg].
    by rewrite Hid in Hneg.
  - rewrite deleteDownload_run. simpl.
    rewrite lookup_delete_eq, delete_delete_eq. f_equal. f_equal.
    induction (downloads w) as [|r rows IH]; [done|]. simpl.
    destruct (has_id downloadId r) eqn:Hr; simpl; rewrite ?Hr; simpl;
      by rewrite IH.
Qed.

Lemma deleteDownload_effect_witness :
  ∃ w1, deleteDownload 1 (Scenario.both_started) = (w1, Ok tt)
      ∧ dl_bookId <$> downloads w1 = [Some "wiki_mini"]%string
      ∧ signals w1 = [(0%nat, SIGTERM)].
Proof.
  destruct (deleteDownload_effect (Scenario.env 0) 1 Scenario.both_started)
    as (w1 & Hrun & Hrows & _ & _ & Hsig & _).
  exists w1. split; [exact Hrun|]. split.
  - rewrite Hrows. reflexivity.
  - destruct (activeProcesses Scenario.both_started !! 1) as [process|] eqn:Hp.
    + rewrite (Hsig process eq_refl). vm_compute in Hp.
      by injection Hp as <-.
    + vm_compute in Hp. discriminate.
Defined.

(** ** Observing progress *)

(** X9. A progress query never throws and leaves the world as it is. It
    answers [null] exactly when no row has the id. For a row that is not
    [downloading] it reports the stored byte count (0 for null); for a
    [downloading] row with a file path it reports the size of the file, and
    the stored count when [stat] fails. *)
Theorem getDownloadProgress_reads (E : Env) (downloadId : Z) (w : World) :
  ∃ answer,
    getDownloadProgress E downloadId w = (w, Ok answer)
    ∧ (answer = None ↔ List.find (has_id downloadId) (downloads w) = None)
    ∧ ∀ d, List.find (has_id downloadId) (downloads w) = Some d →
        ∃ p, answer = Some p
           ∧ dp_id p = dl_id d ∧ dp_status p = dl_status d
           ∧ dp_error p = dl_error d
           ∧ (dl_status d ≠ downloading →
              dp_bytesDownloaded p = default 0 (dl_bytesDownloaded d))
           ∧ (dl_status d = downloading →
              ∀ path, dl_filePath d = Some path → path ≠ EmptyString →
                (∀ size, stat_size E path = Some size →
                         dp_bytesDownloaded p = size)
                ∧ (stat_size E path = None →
                   dp_bytesDownloaded p = default 0 (dl_bytesDownloaded d))).
Proof.
  unfold getDownloadProgress. run.
  destruct (List.find (has_id downloadId) (downloads w)) as [d|].
  - eexists. split; [reflexivity|]. split; [done|].
    intros d' [= <-]. eexists. split; [reflexivity|]. simpl.
    split_and!; try done.
    + intros Hst. by rewrite bool_decide_eq_false_2.
    + intros Hst path Hpath Hne. rewrite Hpath. simpl.
      rewrite bool_decide_eq_true_2 by done.
      destruct path; [done|]. simpl. split; [by intros size ->|by intros ->].
  - eexists. split; [reflexivity|]. done.
Qed.

Lemma getDownloadProgress_reads_witness :
  ∃ p, getDownloadProgress (Scenario.env 0) 1 (Scenario.running downloading)
         = (Scenario.running downloading, Ok (Some p))
     ∧ dp_bytesDownloaded p = 4096.
Proof.
  destruct (getDownloadProgress_reads (Scenario.env 0) 1
              (Scenario.running downloading)) as (answer & Hrun & _ & Hrow).
  destruct (Hrow (Scenario.row_wiki downloading) eq_refl)
    as (p & -> & _ & _ & _ & _ & Hfile).
  exists p. split; [exact Hrun|].
  destruct (Hfile eq_refl "/zim/wiki.zim"%string eq_refl ltac:(discriminate))
    as [Hsize _].
  exact (Hsize 4096 eq_refl).
Defined.



(** ** How operations and process events compose *)

(** X11. The exit of a cancelled process rewrites what the cancel wrote.
    After [cancelDownload], when the [close] event of the process arrives
    with a code other than 0 (a [null] code for a process killed by the
    signal), the row's error is ["wget exited with code <code>"] and no
    longer ["Cancelled by user"]; when it arrives with code 0, the row is
    [completed]. *)
Theorem cancel_then_close (E : Env) (wget : ChildProcess) (code : option Z)
    (w : World) (d : Download) :
  List.find (has_id (cp_downloadId wget)) (downloads w) = Some d →
  ∃ w1 w2 d2,
    cancelDownload (cp_downloadId wget) w = (w1, Ok tt)
    ∧ on_close E wget code w1 = (w2, Ok tt)
    ∧ List.find (has_id (cp_downloadId wget)) (downloads w2) = Some d2
    ∧ (code ≠ Some 0 →
       dl_status d2 = failed
       ∧ dl_error d2 = Some ("wget exited with code " +:+ show_code code))
    ∧ (code = Some 0 →
       dl_status d2 = completed
       ∧ dl_error d2 = Some "Cancelled by user"%string).
Proof.
  intros Hd. rewrite cancelDownload_run.
  eexists. destruct (decide (code = Some 0)) as [-> | Hcode].
  - destruct (on_close_zero E wget
                (mkWorld
                   (update_where (has_id (cp_downloadId wget))
                      (set_failed "Cancelled by user") (downloads w))
                   (downloads_seq w) (localZims w) (localZims_seq w)
                   (delete (cp_downloadId wget) (activeProcesses w)) (spawned w)
                   match activeProcesses w !! cp_downloadId wget with
                   | Some process => signals w ++ [(cp_serial process, SIGTERM)]
                   | None => signals w
                   end)) as (w2 & Hrun & Hrows & _).
    exists w2. eexists. split; [reflexivity|]. split; [exact Hrun|].
    rewrite Hrows. simpl.
    rewrite find_update_where_id by done.
    rewrite find_update_where_id, Hd by done. simpl. split_and!; done.
  - rewrite on_close_nonzero by done. simpl.
    rewrite find_update_where_id, Hd by done. simpl.
    eexists _, _. split; [reflexivity|]. split; [reflexivity|]. simpl.
    rewrite find_update_where_id by done.
    rewrite find_update_where_id, Hd by done. simpl. split_and!; done.
Qed.

Lemma cancel_then_close_witness :
  ∃ w1 w2 d2,
    cancelDownload 1 (Scenario.running downloading) = (w1, Ok tt)
    ∧ on_close (Scenario.env 0) Scenario.wget_wiki None w1 = (w2, Ok tt)
    ∧ List.find (has_id 1) (downloads w2) = Some d2
    ∧ dl_error d2 = Some "wget exited with code null"%string.
Proof.
  destruct (cancel_then_close (Scenario.env 0) Scenario.wget_wiki None
              (Scenario.running downloading) (Scenario.row_wiki downloading)
              eq_refl)
    as (w1 & w2 & d2 & Hcancel & Hclose & Hrow & Hkilled & _).
  exists w1, w2, d2. split; [exact Hcancel|]. split; [exact Hclose|].
  split; [exact Hrow|]. by destruct (Hkilled ltac:(discriminate)).
Defined.

Lemma resumeDownload_restarts (E : Env) (downloadId : Z) (w : World)
    (d : Download) (bookId : string) book doc downloadUrl pid :
  List.find (has_id downloadId) (downloads w) = Some d →
  live (activeProcesses w !! downloadId) = None →
  dl_bookId d = Some bookId → bookId ≠ EmptyString →
  dl_status d ≠ downloading → unique_books w →
  preflight E bookId book doc downloadUrl →
  spawn_pid E = Some pid →
  resumeDownload E downloadId w =
    (started E book doc downloadUrl (set_downloading (now E) d)
       (with_downloads
          (update_where (has_id downloadId) (set_downloading (now E))) w),
     Ok tt).
Proof.
  intros Hd Hp Hb Hne Hst Huniq Hpre Hpid.
  rewrite (resumeDownload_restart E downloadId w d bookId) by done.
  apply find_some_elem_of in Hd as Hdin. destruct Hdin as [Hdin Hdid].
  unfold has_id in Hdid. apply bool_decide_eq_true in Hdid.
  assert (List.find (has_bookId bookId) (downloads w) = Some d) as He.
  { destruct (List.find (has_bookId bookId) (downloads w)) as [e|] eqn:He.
    - apply find_some_elem_of in He as [Hein Hbk].
      unfold has_bookId in Hbk. apply bool_decide_eq_true in Hbk.
      f_equal. by eapply unique_books_eq.
    - apply (find_none_elem_of _ _ _ He) in Hdin.
      unfold has_bookId in Hdin. by apply bool_decide_eq_false in Hdin. }
  destruct (startDownload_reuse E bookId book doc downloadUrl w d)
    as (d' & Hd' & Hrun); try done.
  rewrite Hdid, Hd in Hd'. injection Hd' as <-.
  rewrite (spawn_outcome_some _ _ _ Hpid) in Hrun.
  unfold mbind, M_bind. rewrite Hrun, Hdid. done.
Qed.

(** X12. A download that is paused and whose process then exits with a
    code other than 0 stays [paused] and loses its entry in the process
    table; resuming it afterwards restarts it: once the checks of
    [startDownload] pass and the spawn gives a process with a pid, the
    same row is [downloading] again, no row is added, and one new process,
    writing to the path of the resolved file name, is registered under
    the id. *)
Theorem pause_exit_resume (E : Env) (wget : ChildProcess) (code : option Z)
    (w : World) (d : Download) (process : ChildProcess) (bookId : string)
    (book : CatalogBook) (doc : Meta4File) (downloadUrl : string) (pid : Z) :
  List.find (has_id (cp_downloadId wget)) (downloads w) = Some d →
  live (activeProcesses w !! cp_downloadId wget) = Some process →
  code ≠ Some 0 →
  dl_bookId d = Some bookId → bookId ≠ EmptyString →
  unique_books w →
  preflight E bookId book doc downloadUrl →
  spawn_pid E = Some pid →
  ∃ w1 w2 w3 d3 restarted,
    pauseDownload (cp_downloadId wget) w = (w1, Ok tt)
    ∧ on_close E wget code w1 = (w2, Ok tt)
    ∧ List.find (has_id (cp_downloadId wget)) (downloads w2)
      = Some (set_status paused d)
    ∧ activeProcesses w2 !! cp_downloadId wget = None
    ∧ resumeDownload E (cp_downloadId wget) w2 = (w3, Ok tt)
    ∧ List.find (has_id (cp_downloadId wget)) (downloads w3) = Some d3
    ∧ dl_status d3 = downloading ∧ dl_error d3 = None
    ∧ dl_bookId d3 = Some bookId
    ∧ length (downloads w3) = length (downloads w)
    ∧ spawned w3 = spawned w ++ [restarted]
    ∧ activeProcesses w3 !! cp_downloadId wget = Some restarted
    ∧ cp_outputPath restarted
      = path_join E (setting_downloadFolder E) (file_name doc)
    ∧ cp_pid restarted = Some pid.
Proof.
  intros Hd Hp Hcode Hb Hne Huniq Hpre Hpid.
  apply find_some_elem_of in Hd as Hdid. destruct Hdid as [_ Hdid].
  unfold has_id in Hdid. apply bool_decide_eq_true in Hdid.
  rewrite (pauseDownload_live _ _ process) by done.
  set (w1 := mkWorld
               (update_where (has_id (cp_downloadId wget)) (set_status paused)
                             (downloads w))
               (downloads_seq w) (localZims w) (localZims_seq w)
               (activeProcesses w) (spawned w)
               (signals w ++ [(cp_serial process, SIGSTOP)])).
  assert (Hd1 : List.find (has_id (cp_downloadId wget)) (downloads w1)
                = Some (set_status paused d))
    by (simpl; by rewrite find_update_where_id, Hd).
  set (w2 := mkWorld (downloads w1) (downloads_seq w1) (localZims w1)
               (localZims_seq w1)
               (delete (cp_downloadId wget) (activeProcesses w1))
               (spawned w1) (signals w1)).
  assert (Hclose : on_close E wget code w1 = (w2, Ok tt)).
  { rewrite on_close_nonzero by done. by rewrite Hd1. }
  assert (Hresume : resumeDownload E (cp_downloadId wget) w2 =
            (started E book doc downloadUrl
               (set_downloading (now E) (set_status paused d))
               (with_downloads
                  (update_where (has_id (cp_downloadId wget))
                                (set_downloading (now E))) w2),
             Ok tt)).
  { apply (resumeDownload_restarts E (cp_downloadId wget) w2
             (set_status paused d) bookId book doc downloadUrl pid);
      try done.
    - simpl. by rewrite lookup_delete_eq.
    - unfold unique_books in *. simpl. by rewrite omap_update_where. }
  exists w1, w2. eexists. eexists.
  exists (mkChild (length (spawned w)) (spawn_pid E) (cp_downloadId wget)
            downloadUrl
            (path_join E (setting_downloadFolder E) (file_name doc))
            (default 0 (book_size book) * 1024)
            (mkBookInfo (book_id book) (book_date book) (file_name doc))).
  split; [reflexivity|]. split; [exact Hclose|]. split; [exact Hd1|].
  split; [apply lookup_delete_eq|]. split; [exact Hresume|].
  rewrite find_started_id by done. rewrite started_length.
  destruct (started_process E book doc downloadUrl
              (set_downloading (now E) (set_status paused d))
              (with_downloads
                 (update_where (has_id (cp_downloadId wget))
                               (set_downloading (now E))) w2))
    as (Hsp & Hact & _).
  rewrite Hsp, Hact. simpl.
  rewrite find_update_where_id by done.
  rewrite find_update_where_id, Hd by done. simpl.
  rewrite !update_where_length, Hdid, lookup_insert_eq.
  split; [reflexivity|].
  rewrite Hpid. split_and!; done.
Qed.

Lemma pause_exit_resume_witness :
  ∃ w1 w2 w3 d3,
    pauseDownload 1 (Scenario.running downloading) = (w1, Ok tt)
    ∧ on_close (Scenario.env 3000000000) Scenario.wget_wiki (Some 4) w1
      = (w2, Ok tt)
    ∧ resumeDownload (Scenario.env 3000000000) 1 w2 = (w3, Ok tt)
    ∧ List.find (has_id 1) (downloads w3) = Some d3
    ∧ dl_status d3 = downloading
    ∧ length (spawned w3) = 2%nat.
Proof.
  destruct (pause_exit_resume (Scenario.env 3000000000) Scenario.wget_wiki
              (Some 4) (Scenario.running downloading)
              (Scenario.row_wiki downloading) Scenario.wget_wiki "wiki"
              Scenario.wiki (mkMeta4 "wiki.zim" Scenario.mirrors)
              "http://mirror-a/wiki.zim" 4242)
    as (w1 & w2 & w3 & d3 & restarted & Hpause & Hclose & _ & _ & Hresume
        & Hrow & Hst & _ & _ & _ & Hsp & _).
  - reflexivity.
  - reflexivity.
  - discriminate.
  - reflexivity.
  - discriminate.
  - apply NoDup_singleton.
  - unfold preflight. split_and!; try reflexivity.
    exists 3000000000. split; reflexivity.
  - reflexivity.
  - exists w1, w2, w3, d3. split; [exact Hpause|]. split; [exact Hclose|].
    split; [exact Hresume|]. split; [exact Hrow|]. split; [exact Hst|].
    by rewrite Hsp.
Defined.

(** ** The process table and the store *)

Lemma table_consistent_ids (w : World) :
  table_consistent w ↔
  ∀ i process,
    activeProcesses w !! i = Some process →
    cp_downloadId process = i ∧ process ∈ spawned w
    ∧ i ∈ dl_id <$> downloads w.
Proof.
  unfold table_consistent. split; intros H i process Hp;
    destruct (H i process Hp) as (Hid & Hsp & Hrow); split_and!; try done.
  - destruct Hrow as (d & Hd & <-). apply list_elem_of_fmap. by exists d.
  - apply list_elem_of_fmap in Hrow as (d & -> & Hd). by exists d.
Qed.

(** An operation that registers nothing, forgets no spawned process, and
    keeps the rows of the processes it leaves registered. *)
Lemma table_consistent_shrink (w w' : World) :
  table_consistent w →
  (∀ i process, activeProcesses w' !! i = Some process →
                activeProcesses w !! i = Some process) →
  (∀ process, process ∈ spawned w → process ∈ spawned w') →
  (∀ i, i ∈ dl_id <$> downloads w → is_Some (activeProcesses w' !! i) →
        i ∈ dl_id <$> downloads w') →
  table_consistent w'.
Proof.
  rewrite !table_consistent_ids. intros Hinv Htable Hsp Hrows i process Hp.
  destruct (Hinv i process (Htable i process Hp)) as (Hid & Hin & Hrow).
  split_and!; [done | by apply Hsp | by apply Hrows].
Qed.

Lemma table_consistent_started E book doc downloadUrl d (w : World) :
  table_consistent w → dl_id d ∈ dl_id <$> downloads w →
  table_consistent (started E book doc downloadUrl d w).
Proof.
  rewrite !table_consistent_ids. intros Hinv Hd i process.
  destruct (started_process E book doc downloadUrl d w) as (-> & -> & _).
  rewrite ids_started. intros Hp.
  destruct (decide (i = dl_id d)) as [-> | Hne].
  - rewrite lookup_insert_eq in Hp. injection Hp as <-. simpl.
    split_and!; [done | | done]. apply elem_of_app. right.
    apply list_elem_of_here.
  - rewrite lookup_insert_ne in Hp by done.
    destruct (Hinv i process Hp) as (Hid & Hin & Hrow).
    split_and!; try done. apply elem_of_app. by left.
Qed.

Lemma startDownload_table_consistent (E : Env) (bookId : string) (w : World) :
  table_consistent w → table_consistent (startDownload E bookId w).1.
Proof.
  intros Hinv.
  destruct (startDownload_cases E bookId w)
    as [[m ->] | (book & doc & url & _ &
                  [(e & d & He & _ & Hd & ->) | [Hnone ->]])]; cbn [fst].
  - done.
  - apply find_some_elem_of in Hd as [Hin Hid].
    unfold has_id in Hid. apply bool_decide_eq_true in Hid.
    apply table_consistent_started.
    + eapply table_consistent_shrink; [exact Hinv|done|done|].
      simpl. intros i Hi _. by rewrite ids_update_where.
    + simpl. rewrite ids_update_where by done.
      apply list_elem_of_fmap. by exists d.
  - apply table_consistent_started.
    + eapply table_consistent_shrink; [exact Hinv|done|done|].
      simpl. intros i Hi _. rewrite fmap_app. apply elem_of_app. by left.
    + simpl. rewrite fmap_app. apply elem_of_app. right. simpl.
      apply list_elem_of_here.
Qed.

Lemma getDownloadProgress_world (E : Env) (downloadId : Z) (w : World) :
  (getDownloadProgress E downloadId w).1 = w.
Proof.
  unfold getDownloadProgress. run.
  by destruct (List.find (has_id downloadId) (downloads w)).
Qed.

Lemma on_data_world (E : Env) (wget : ChildProcess) (elapsed : Z) (w : World) :
  (on_data E wget elapsed w).1 = w
  ∨ ∃ size,
      (on_data E wget elapsed w).1
      = with_downloads
          (update_where (has_id (cp_downloadId wget)) (set_bytesDownloaded size))
          w.
Proof.
  unfold on_data. destruct (500 <? elapsed); [|by left].
  destruct (stat_size E (cp_outputPath wget)) as [size|]; [|by left].
  right. by exists size.
Qed.

Lemma step_table_consistent (w : World) (ev : Env * Event) :
  table_consistent w → table_consistent (step w ev).
Proof.
  destruct ev as [E [bookId|downloadId|downloadId|downloadId|downloadId
                     |downloadId|wget elapsed|wget code|wget message]];
    unfold step; cbn [fst snd]; intros Hinv.
  - by apply startDownload_table_consistent.
  - destruct (live (activeProcesses w !! downloadId)) as [process|] eqn:Hp.
    + rewrite (pauseDownload_live _ _ process) by done.
      eapply table_consistent_shrink; [exact Hinv|done|done|].
      simpl. intros i Hi _. by rewrite ids_update_where.
    + by rewrite pauseDownload_not_live.
  - destruct (List.find (has_id downloadId) (downloads w)) as [d|] eqn:Hd.
    2:{ unfold resumeDownload. run. by rewrite Hd. }
    destruct (live (activeProcesses w !! downloadId)) as [process|] eqn:Hp.
    { rewrite (resumeDownload_live _ _ _ d process) by done.
      eapply table_consistent_shrink; [exact Hinv|done|done|].
      simpl. intros i Hi _. by rewrite ids_update_where. }
    destruct (truthy (dl_bookId d)) eqn:Hb.
    + destruct (dl_bookId d) as [[|c b]|] eqn:Hbook; try done.
      rewrite (resumeDownload_restart _ _ _ d (String c b)) by done.
      pose proof (startDownload_table_consistent E (String c b) w Hinv) as Hs.
      unfold mbind, M_bind.
      by destruct (startDownload E (String c b) w) as [w' [r|m]].
    + unfold resumeDownload. run. by rewrite Hd, Hp, Hb.
  - rewrite cancelDownload_run.
    eapply table_consistent_shrink; [exact Hinv|..]; simpl.
    + intros i process Hp. apply lookup_delete_Some in Hp. tauto.
    + done.
    + intros i Hi _. by rewrite ids_update_where.
  - rewrite deleteDownload_run.
    eapply table_consistent_shrink; [exact Hinv|..]; simpl.
    + intros i process Hp. apply lookup_delete_Some in Hp. tauto.
    + done.
    + intros i (d & -> & Hd)%list_elem_of_fmap [process Hp].
      apply lookup_delete_Some in Hp as [Hne _].
      apply list_elem_of_fmap. exists d. split; [done|].
      apply list_elem_of_In, filter_In. split; [by apply list_elem_of_In|].
      unfold has_id. by rewrite negb_true_iff, bool_decide_eq_false.
  - by rewrite getDownloadProgress_world.
  - destruct (on_data_world E wget elapsed w) as [-> | [size ->]]; [done|].
    eapply table_consistent_shrink; [exact Hinv|done|done|].
    simpl. intros i Hi _. by rewrite ids_update_where.
  - destruct (decide (code = Some 0)) as [-> | Hcode].
    + destruct (on_close_zero E wget w) as (w1 & -> & Hrows & Hact & Hsp & _).
      eapply table_consistent_shrink; [exact Hinv|..]; cbn [fst].
      * rewrite Hact. intros i process Hp.
        apply lookup_delete_Some in Hp. tauto.
      * by rewrite Hsp.
      * intros i Hi _. by rewrite Hrows, ids_update_where.
    + rewrite on_close_nonzero by done.
      eapply table_consistent_shrink; [exact Hinv|..]; simpl.
      * intros i process Hp. apply lookup_delete_Some in Hp. tauto.
      * done.
      * intros i Hi _. case_bool_decide; [by rewrite ids_update_where|done].
  - run. eapply table_consistent_shrink; [exact Hinv|..]; simpl.
    + intros i process Hp. apply lookup_delete_Some in Hp. tauto.
    + done.
    + intros i Hi _. by rewrite ids_update_where.
Qed.

(** X13. Whatever operations are called and whatever process events
    arrive, in any order and under any environments, the process table
    stays consistent with the store: every registered process is filed
    under the id of the download it was spawned for, was spawned by the
    manager, and its download has a row. In particular this holds of every
    world reached from the empty one. *)
Theorem process_table_consistent (evs : list (Env * Event)) (w : World) :
  table_consistent w →
  table_consistent (run_events evs w)
  ∧ table_consistent (run_events evs Scenario.empty).
Proof.
  assert (Hrun : ∀ w0, table_consistent w0 → table_consistent (run_events evs w0)).
  { unfold run_events. induction evs as [|ev evs IH]; intros w0 H0; simpl;
      [done|]. by apply IH, step_table_consistent. }
  intros Hinv. split; [by apply Hrun|]. apply Hrun.
  intros i process Hp. simpl in Hp. by rewrite lookup_empty in Hp.
Qed.

Lemma process_table_consistent_witness :
  table_consistent
    (run_events [(Scenario.env 3000000000, Start "wiki_mini");
                 (Scenario.env 3000000000, Delete 1)]
                (Scenario.running paused)).
Proof.
  apply (process_table_consistent
           [(Scenario.env 3000000000, Start "wiki_mini");
            (Scenario.env 3000000000, Delete 1)]
           (Scenario.running paused)).
  intros i process Hp.
  destruct (decide (i = 1)) as [-> | Hne].
  - vm_compute in Hp. injection Hp as <-.
    split; [reflexivity|]. split; [apply list_elem_of_here|].
    exists (Scenario.row_wiki paused). split; [apply list_elem_of_here|reflexivity].
  - unfold Scenario.running in Hp. simpl in Hp.
    rewrite lookup_singleton_ne in Hp by done. discriminate.
Defined.

(** ** The local library *)

Lemma on_close_zero_library (E : Env) (wget : ChildProcess) (w : World) :
  let path := cp_outputPath wget in
  let info := cp_bookInfo wget in
  let stats := stat_size E path in
  localZims (on_close E wget (Some 0) w).1 =
    match List.find (λ z, bool_decide (lz_filePath z = path)) (localZims w) with
    | Some z =>
        update_where (λ r, bool_decide (lz_id r = lz_id z))
                     (set_scanned stats info (now E)) (localZims w)
    | None =>
        localZims w ++
        [mkLocalZim (next_rowid (localZims_seq w) (lz_id <$> localZims w))
           path (bi_fileName info) stats (Some (bi_bookId info))
           (bi_catalogDate info) (Some false) (Some (now E)) (Some (now E))]
    end.
Proof.
  unfold on_close. run.
  by destruct (List.find _ (localZims w)).
Qed.

Lemma paths_update_where (p : LocalZim → bool) (f : LocalZim → LocalZim)
    (rows : list LocalZim) :
  (∀ r, lz_filePath (f r) = lz_filePath r) →
  lz_filePath <$> update_where p f rows = lz_filePath <$> rows.
Proof.
  intros Hf. unfold update_where. rewrite <- list_fmap_compose.
  apply list_fmap_ext. intros _ r _. simpl. by destruct (p r).
Qed.

Lemma NoDup_fmap_eq {A B} (f : A → B) (l : list A) (x y : A) :
  NoDup (f <$> l) → x ∈ l → y ∈ l → f x = f y → x = y.
Proof.
  induction l as [|a l IH]; intros Hnd Hx Hy Hf.
  { by apply elem_of_nil in Hx. }
  rewrite fmap_cons in Hnd. apply NoDup_cons in Hnd as [Hnotin Hnd].
  apply elem_of_cons in Hx as [-> | Hx]; apply elem_of_cons in Hy as [-> | Hy].
  - done.
  - exfalso. apply Hnotin. rewrite Hf. apply list_elem_of_fmap. by exists y.
  - exfalso. apply Hnotin. rewrite <- Hf. apply list_elem_of_fmap. by exists x.
  - by apply IH.
Qed.

Lemma on_close_unique_paths (E : Env) (wget : ChildProcess) (code : option Z)
    (w : World) :
  unique_paths w → unique_paths (on_close E wget code w).1.
Proof.
  unfold unique_paths. intros Hnd.
  destruct (decide (code = Some 0)) as [-> | Hcode].
  - rewrite on_close_zero_library.
    destruct (List.find _ (localZims w)) as [z|] eqn:Hz.
    + by rewrite paths_update_where.
    + rewrite fmap_app. simpl. apply NoDup_app. split_and!; [done| |].
      * intros path (z & -> & Hin)%list_elem_of_fmap Hp%list_elem_of_singleton.
        apply (find_none_elem_of _ _ _ Hz) in Hin.
        by apply bool_decide_eq_false in Hin.
      * apply NoDup_singleton.
  - by rewrite on_close_nonzero.
Qed.

Lemma step_localZims (w : World) (ev : Env * Event) :
  (∀ wget, ev.2 ≠ Close wget (Some 0)) → localZims (step w ev) = localZims w.
Proof.
  destruct ev as [E [bookId|downloadId|downloadId|downloadId|downloadId
                     |downloadId|wget elapsed|wget code|wget message]];
    unfold step; cbn [fst snd]; intros Hev.
  - destruct (startDownload_cases E bookId w)
      as [[m ->] | (book & doc & url & _ &
                    [(e & d & _ & _ & _ & ->) | [_ ->]])];
      cbn [fst]; by rewrite ?localZims_started.
  - destruct (live (activeProcesses w !! downloadId)) as [process|] eqn:Hp.
    + by rewrite (pauseDownload_live _ _ process).
    + by rewrite pauseDownload_not_live.
  - destruct (List.find (has_id downloadId) (downloads w)) as [d|] eqn:Hd.
    2:{ unfold resumeDownload. run. by rewrite Hd. }
    destruct (live (activeProcesses w !! downloadId)) as [process|] eqn:Hp.
    { by rewrite (resumeDownload_live _ _ _ d process). }
    destruct (truthy (dl_bookId d)) eqn:Hb.
    + destruct (dl_bookId d) as [[|c b]|] eqn:Hbook; try done.
      rewrite (resumeDownload_restart _ _ _ d (String c b)) by done.
      unfold mbind, M_bind.
      destruct (startDownload_cases E (String c b) w)
        as [[m ->] | (book & doc & url & _ &
                      [(e & d' & _ & _ & _ & ->) | [_ ->]])];
        [done | cbv zeta; destruct (spawn_outcome _ _);
                unfold mret, M_ret; cbn [fst];
                by rewrite localZims_started..].
    + unfold resumeDownload. run. by rewrite Hd, Hp, Hb.
  - by rewrite cancelDownload_run.
  - by rewrite deleteDownload_run.
  - by rewrite getDownloadProgress_world.
  - by destruct (on_data_world E wget elapsed w) as [-> | [size ->]].
  - rewrite on_close_nonzero; [done|]. intros ->. by apply (Hev wget).
  - by run.
Qed.

Lemma step_unique_paths (w : World) (ev : Env * Event) :
  unique_paths w → unique_paths (step w ev).
Proof.
  intros Hnd. destruct ev as [E ev].
  assert ((∃ wget, ev = Close wget (Some 0)) ∨ ∀ wget, ev ≠ Close wget (Some 0))
    as [[wget ->] | Hne].
  { destruct ev as [| | | | | | |wget [[| |]|]|]; try by right.
    left. by exists wget. }
  - by apply on_close_unique_paths.
  - unfold unique_paths. by rewrite step_localZims.
Qed.

(** X14. No sequence of operations and process events puts two rows with
    the same [filePath] into the local library. When a process exits with
    code 0, the library holds afterwards exactly one row for the file it
    wrote: with the book's id and catalog date, the size given by [stat]
    (null when it fails), [hasUpdate] false and the time of the check; a
    row that was there for the path is updated in place, otherwise one row
    is added. *)
Theorem library_record (evs : list (Env * Event)) (E : Env)
    (wget : ChildProcess) (w : World) :
  unique_paths w →
  unique_paths (run_events evs w)
  ∧ ∃ w1 z,
      on_close E wget (Some 0) w = (w1, Ok tt)
      ∧ z ∈ localZims w1
      ∧ lz_filePath z = cp_outputPath wget
      ∧ lz_bookId z = Some (bi_bookId (cp_bookInfo wget))
      ∧ lz_catalogDate z = bi_catalogDate (cp_bookInfo wget)
      ∧ lz_fileSize z = stat_size E (cp_outputPath wget)
      ∧ lz_hasUpdate z = Some false
      ∧ lz_lastChecked z = Some (now E)
      ∧ (∀ z', z' ∈ localZims w1 →
               lz_filePath z' = cp_outputPath wget → z' = z)
      ∧ length (localZims w1)
        = match List.find (λ r, bool_decide (lz_filePath r = cp_outputPath wget))
                          (localZims w) with
          | Some _ => length (localZims w)
          | None => S (length (localZims w))
          end.
Proof.
  intros Hnd. split.
  { revert w Hnd. unfold run_events.
    induction evs as [|ev evs IH]; intros w Hnd; simpl; [done|].
    by apply IH, step_unique_paths. }
  pose proof (on_close_unique_paths E wget (Some 0) w Hnd) as Hnd1.
  pose proof (on_close_zero_library E wget w) as Hlib. cbv zeta in Hlib.
  destruct (on_close_zero E wget w) as (w1 & Hrun & _).
  rewrite Hrun in Hnd1, Hlib. cbn [fst] in Hnd1, Hlib.
  exists w1.
  assert (∃ z, z ∈ localZims w1
             ∧ lz_filePath z = cp_outputPath wget
             ∧ lz_bookId z = Some (bi_bookId (cp_bookInfo wget))
             ∧ lz_catalogDate z = bi_catalogDate (cp_bookInfo wget)
             ∧ lz_fileSize z = stat_size E (cp_outputPath wget)
             ∧ lz_hasUpdate z = Some false
             ∧ lz_lastChecked z = Some (now E)) as (z & Hz & Hpath & Hrest).
  { rewrite Hlib.
    destruct (List.find _ (localZims w)) as [z0|] eqn:Hz0.
    - apply find_some_elem_of in Hz0 as [Hin Hp].
      apply bool_decide_eq_true in Hp.
      exists (set_scanned (stat_size E (cp_outputPath wget)) (cp_bookInfo wget)
                          (now E) z0).
      split; [|by split_and!].
      unfold update_where. apply list_elem_of_fmap. exists z0.
      split; [|done]. by rewrite bool_decide_eq_true_2.
    - eexists. split; [apply elem_of_app; right; apply list_elem_of_here|].
      by split_and!. }
  exists z. split; [done|]. split; [done|]. split; [done|].
  destruct Hrest as (? & ? & ? & ? & ?). split_and!; try done.
  - intros z' Hz' Hpath'. eapply (NoDup_fmap_eq lz_filePath); try done.
    congruence.
  - rewrite Hlib. destruct (List.find _ (localZims w)).
    + apply update_where_length.
    + rewrite length_app. simpl. lia.
Qed.

Lemma library_record_witness :
  ∃ w1 z,
    on_close (Scenario.env 0) Scenario.wget_wiki (Some 0)
             (Scenario.running downloading) = (w1, Ok tt)
    ∧ localZims w1 = [z]
    ∧ lz_filePath z = "/zim/wiki.zim"%string
    ∧ lz_fileSize z = Some 4096.
Proof.
  destruct (library_record [] (Scenario.env 0) Scenario.wget_wiki
              (Scenario.running downloading)
              (NoDup_nil_2 : unique_paths (Scenario.running downloading)))
    as (_ & w1 & z & Hrun & Hz & Hpath & _ & _ & Hsize & _ & _ & _ & Hlen).
  exists w1, z. split; [exact Hrun|].
  split; [|split; [exact Hpath | exact Hsize]].
  simpl in Hlen. destruct (localZims w1) as [|z1 [|z2 rest]]; try discriminate.
  apply list_elem_of_singleton in Hz. by subst.
Defined.

(** ** Settings *)

Lemma key_name_inj (key key' : SettingKey) :
  key_name key = key_name key' → key = key'.
Proof. by destruct key, key'. Qed.

Lemma getAllSettings_field (defaults : AppSettings) (key : SettingKey)
    (table : gmap string (option string)) :
  default_setting (getAllSettings defaults table) key
  = getSetting defaults key table.
Proof.
  unfold getAllSettings, getSetting.
  destruct key; simpl; by destruct (table !! _) as [[v|]|].
Qed.

Lemma getAllSettings_getSetting (defaults : AppSettings)
    (table : gmap string (option string)) :
  getAllSettings defaults table
  = mkSettings (getSetting defaults downloadFolder table)
               (getSetting defaults kiwixServeUrl table)
               (getSetting defaults catalogSyncInterval table).
Proof.
  unfold getAllSettings, getSetting. simpl.
  by destruct (table !! "downloadFolder") as [[?|]|],
              (table !! "kiwixServeUrl") as [[?|]|],
              (table !! "catalogSyncInterval") as [[?|]|].
Qed.

(** X15. What [setSetting] stores is what is read back, by [getSetting]
    and in the field of [getAllSettings] alike; the other keys read as
    before; and a second write to the key replaces the first. *)
Theorem setting_round_trip (defaults : AppSettings) (key key' : SettingKey)
    (value value' : string) (table : gmap string (option string)) :
  key' ≠ key →
  getSetting defaults key (setSetting key value table) = value
  ∧ default_setting (getAllSettings defaults (setSetting key value table)) key
    = value
  ∧ getSetting defaults key' (setSetting key value table)
    = getSetting defaults key' table
  ∧ default_setting (getAllSettings defaults (setSetting key value table)) key'
    = default_setting (getAllSettings defaults table) key'
  ∧ setSetting key value (setSetting key value' table)
    = setSetting key value table.
Proof.
  intros Hne.
  assert (Hnames : key_name key ≠ key_name key')
    by (intros H; by apply key_name_inj in H).
  rewrite !getAllSettings_field. unfold getSetting, setSetting.
  rewrite lookup_insert_eq, lookup_insert_ne by done.
  split_and!; try done. apply insert_insert_eq.
Qed.

Lemma setting_round_trip_witness :
  getSetting (DEFAULT_SETTINGS "/home/u/zim-files") downloadFolder
    (setSetting downloadFolder "/data/zim" ∅) = "/data/zim"%string
  ∧ getSetting (DEFAULT_SETTINGS "/home/u/zim-files") kiwixServeUrl
      (setSetting downloadFolder "/data/zim" ∅) = "http://localhost:8080"%string.
Proof.
  destruct (setting_round_trip (DEFAULT_SETTINGS "/home/u/zim-files")
              downloadFolder kiwixServeUrl "/data/zim" "" ∅)
    as (Hread & _ & Hother & _); [discriminate|].
  split; [exact Hread|]. rewrite Hother. reflexivity.
Defined.

Lemma initialize_default_lookup (defaults : AppSettings)
    (table : gmap string (option string)) (key : SettingKey) (name : string) :
  initialize_default defaults table key !! name
  = match table !! name with
    | Some x => Some x
    | None => if decide (name = key_name key)
              then Some (Some (default_setting defaults key))
              else None
    end.
Proof.
  unfold initialize_default.
  destruct (table !! key_name key) as [x|] eqn:Hkey.
  - destruct (table !! name) eqn:Hname; [done|].
    case_decide; [congruence|done].
  - destruct (decide (name = key_name key)) as [-> | Hne].
    + by rewrite lookup_insert_eq, Hkey.
    + rewrite lookup_insert_ne by done. by destruct (table !! name).
Qed.

Lemma initialize_default_getSetting (defaults : AppSettings)
    (table : gmap string (option string)) (key0 key : SettingKey) :
  getSetting defaults key (initialize_default defaults table key0)
  = getSetting defaults key table.
Proof.
  unfold getSetting. rewrite initialize_default_lookup.
  destruct (table !! key_name key) as [x|]; [done|].
  case_decide as Heq; [|done]. by apply key_name_inj in Heq as ->.
Qed.

Lemma initialize_default_present (defaults : AppSettings)
    (table : gmap string (option string)) (key : SettingKey) :
  is_Some (table !! key_name key) →
  initialize_default defaults table key = table.
Proof. unfold initialize_default. by intros [x ->]. Qed.

(** X16. [initializeDefaults] fills in rows without changing anything that
    is read: every setting reads after it as it read before, and so does
    [getAllSettings]. It never overwrites a row, not even one whose value
    is null; afterwards each of the three keys has a row; and running it
    again changes nothing. *)
Theorem initializeDefaults_neutral (defaults : AppSettings) (key : SettingKey)
    (table : gmap string (option string)) :
  getSetting defaults key (initializeDefaults defaults table)
  = getSetting defaults key table
  ∧ getAllSettings defaults (initializeDefaults defaults table)
    = getAllSettings defaults table
  ∧ (∀ name x, table !! name = Some x →
               initializeDefaults defaults table !! name = Some x)
  ∧ is_Some (initializeDefaults defaults table !! key_name key)
  ∧ initializeDefaults defaults (initializeDefaults defaults table)
    = initializeDefaults defaults table.
Proof.
  assert (Hget : ∀ k, getSetting defaults k (initializeDefaults defaults table)
                      = getSetting defaults k table).
  { intros k. unfold initializeDefaults. simpl.
    by rewrite !initialize_default_getSetting. }
  assert (Hkeep : ∀ name x, table !! name = Some x →
                    initializeDefaults defaults table !! name = Some x).
  { intros name x Hx. unfold initializeDefaults. simpl.
    rewrite !initialize_default_lookup. by rewrite Hx. }
  assert (Hall : ∀ k, is_Some (initializeDefaults defaults table !! key_name k)).
  { intros k. unfold initializeDefaults. simpl.
    rewrite !initialize_default_lookup.
    destruct (table !! key_name k); [by eexists|].
    destruct k; repeat case_decide; try done; by eexists. }
  split_and!; try done.
  - by rewrite !getAllSettings_getSetting, !Hget.
  - unfold initializeDefaults at 1. simpl.
    rewrite (initialize_default_present _ _ downloadFolder) by apply Hall.
    rewrite (initialize_default_present _ _ kiwixServeUrl) by apply Hall.
    by rewrite (initialize_default_present _ _ catalogSyncInterval) by apply Hall.
Qed.

Lemma initializeDefaults_neutral_witness :
  initializeDefaults (DEFAULT_SETTINGS "/home/u/zim-files")
    (<["kiwixServeUrl" := None]> ∅) !! "kiwixServeUrl"%string = Some None
  ∧ getSetting (DEFAULT_SETTINGS "/home/u/zim-files") kiwixServeUrl
      (initializeDefaults (DEFAULT_SETTINGS "/home/u/zim-files")
         (<["kiwixServeUrl" := None]> ∅))
    = "http://localhost:8080"%string.
Proof.
  destruct (initializeDefaults_neutral (DEFAULT_SETTINGS "/home/u/zim-files")
              kiwixServeUrl (<["kiwixServeUrl" := None]> ∅))
    as (Hget & _ & Hkeep & _).
  split.
  - apply Hkeep. reflexivity.
  - rewrite Hget. reflexivity.
Defined.

(** ** File names *)

Local Abbreviation chars := Strings.String.list_ascii_of_string.
Local Abbreviation unchars := Strings.String.string_of_list_ascii.

Lemma chars_app (s1 s2 : string) : chars (s1 +:+ s2) = chars s1 ++ chars s2.
Proof. induction s1 as [|a s1 IH]; [done|]. simpl. by rewrite IH. Qed.

Lemma unchars_app (l1 l2 : list ascii) :
  unchars (l1 ++ l2) = unchars l1 +:+ unchars l2.
Proof. induction l1 as [|a l1 IH]; [done|]. simpl. by rewrite IH. Qed.

Lemma unchars_chars (s : string) : unchars (chars s) = s.
Proof. apply Strings.String.string_of_list_ascii_of_string. Qed.

Lemma chars_unchars (l : list ascii) : chars (unchars l) = l.
Proof. apply Strings.String.list_ascii_of_string_of_list_ascii. Qed.

Lemma last_chars_app (k : nat) (l1 l2 : list ascii) :
  length l2 = k → last_chars k (l1 ++ l2) = l2.
Proof.
  intros <-. unfold last_chars. rewrite length_app.
  replace (length l1 + length l2 - length l2)%nat with (length l1) by lia.
  by rewrite drop_app_length.
Qed.

Lemma last_chars_short (k : nat) (l : list ascii) :
  (length l ≤ k)%nat → last_chars k l = l.
Proof.
  intros Hle. unfold last_chars.
  by replace (length l - k)%nat with 0%nat by lia.
Qed.

Lemma take_last_chars (k : nat) (l : list ascii) :
  take (length l - k) l ++ last_chars k l = l.
Proof. apply take_drop. Qed.

Lemma length_last_chars (k : nat) (l : list ascii) :
  length (last_chars k l) = (length l `min` k)%nat.
Proof. unfold last_chars. rewrite length_drop. lia. Qed.

Lemma is_zim_ext_length (l : list ascii) : is_zim_ext l = true → length l = 4%nat.
Proof.
  unfold is_zim_ext. intros H%bool_decide_eq_true.
  apply (f_equal length) in H. by rewrite length_fmap in H.
Qed.

Lemma is_month_length (l : list ascii) : is_month l = true → length l = 7%nat.
Proof. by destruct l as [|? [|? [|? [|? [|? [|? [|? [|? ?]]]]]]]]. Qed.

Lemma is_day_length (l : list ascii) : is_day l = true → length l = 10%nat.
Proof.
  by destruct l as [|? [|? [|? [|? [|? [|? [|? [|? [|? [|? [|? ?]]]]]]]]]]].
Qed.

(** A date does not end like the extension. *)
Lemma date_not_zim_ext (l : list ascii) :
  is_month l = true ∨ is_day l = true → is_zim_ext (last_chars 4 l) = false.
Proof.
  intros [H | H].
  - destruct l as [|y1 [|y2 [|y3 [|y4 [|h [|m1 [|m2 [|? ?]]]]]]]]; try done.
    simpl in H. rewrite !andb_true_iff in H.
    destruct H as [[[[[[_ _] _] _] Hh] _] _].
    apply bool_decide_eq_true in Hh as ->.
    unfold last_chars, is_zim_ext. simpl. by apply bool_decide_eq_false.
  - destruct l as [|y1 [|y2 [|y3 [|y4 [|h1 [|m1 [|m2 [|h2 [|d1 [|d2 [|? ?]]]]]]]]]]];
      try done.
    simpl in H. rewrite !andb_true_iff in H.
    destruct H as [[[[[[[[[_ _] _] _] _] _] _] Hh] _] _].
    apply bool_decide_eq_true in Hh as ->.
    unfold last_chars, is_zim_ext. simpl. by apply bool_decide_eq_false.
Qed.

Lemma last_chars_app_ge (k : nat) (l1 l2 : list ascii) :
  (k ≤ length l2)%nat → last_chars k (l1 ++ l2) = last_chars k l2.
Proof.
  intros Hle. unfold last_chars. rewrite length_app.
  replace (length l1 + length l2 - k)%nat
    with (length l1 + (length l2 - k))%nat by lia.
  by rewrite drop_app_add.
Qed.

Lemma strip_zim_ext_app (stem ext : string) :
  is_zim_ext (chars ext) = true → strip_zim_ext (stem +:+ ext) = stem.
Proof.
  intros Hext. unfold strip_zim_ext. rewrite chars_app.
  pose proof (is_zim_ext_length _ Hext) as Hlen.
  rewrite last_chars_app, Hext by done.
  rewrite length_app, Hlen.
  replace (length (chars stem) + 4 - 4)%nat with (length (chars stem)) by lia.
  by rewrite take_app_length, unchars_chars.
Qed.

Lemma strip_zim_ext_dated (base date : string) :
  is_month (chars date) = true ∨ is_day (chars date) = true →
  strip_zim_ext (base +:+ "_" +:+ date) = base +:+ "_" +:+ date.
Proof.
  intros Hdate. unfold strip_zim_ext. rewrite !chars_app.
  rewrite app_assoc, last_chars_app_ge.
  - by rewrite date_not_zim_ext.
  - destruct Hdate as [H%is_month_length | H%is_day_length]; rewrite H; lia.
Qed.

(** With the month form at the end, the day form does not match. *)
Lemma dated_tail_day_month (l1 date : list ascii) :
  is_month date = true →
  dated_tail is_day 10 (l1 ++ "_"%char :: date) = None.
Proof.
  intros Hm.
  destruct date as [|y1 [|y2 [|y3 [|y4 [|h [|m1 [|m2 [|? ?]]]]]]]]; try done.
  unfold dated_tail.
  assert (is_day (last_chars 10 (l1 ++ ["_"%char; y1; y2; y3; y4; h; m1; m2]))
          = false) as ->; [|by rewrite andb_false_r].
  assert (l1 = [] ∨ (∃ b, l1 = [b]) ∨ ∃ l0 b1 b2, l1 = l0 ++ [b1; b2])
    as [-> | [[b ->] | (l0 & b1 & b2 & ->)]].
  { destruct l1 as [|b2 l1 _] using rev_ind; [by left|]. right.
    destruct l1 as [|b1 l1 _] using rev_ind; [left; by eexists|]. right.
    exists l1, b1, b2. by rewrite <- app_assoc. }
  - done.
  - done.
  - rewrite <- !app_assoc. simpl.
    rewrite last_chars_app by done. simpl.
    by destruct (is_digit b1), (is_digit b2).
Qed.

Lemma dated_tail_app (shape : list ascii → bool) (k : nat)
    (l1 date : list ascii) :
  length date = k → shape date = true →
  dated_tail shape k (l1 ++ "_"%char :: date) = Some date.
Proof.
  intros Hlen Hshape. unfold dated_tail.
  rewrite (last_chars_app (S k) l1 ("_"%char :: date)) by (simpl; lia).
  replace (l1 ++ "_"%char :: date) with ((l1 ++ ["_"%char]) ++ date)
    by by rewrite <- app_assoc.
  rewrite last_chars_app by done.
  by rewrite bool_decide_eq_true_2, Hshape.
Qed.

Lemma match_date_app (l1 date : list ascii) :
  is_month date = true ∨ is_day date = true →
  match_date (l1 ++ "_"%char :: date) = Some date.
Proof.
  unfold match_date. intros [Hm | Hd].
  - rewrite dated_tail_day_month by done.
    apply dated_tail_app; [by apply is_month_length | done].
  - by rewrite dated_tail_app by (by try apply is_day_length).
Qed.

(** X17. A file name made of a base name, [_], a date of the form
    [YYYY-MM] or [YYYY-MM-DD] and the extension [.zim] in any letter case
    is taken apart into that base name and that date, whatever the base
    name contains; the same holds without the extension. *)
Theorem parseZimFilename_dated (base date ext : string) :
  is_month (chars date) = true ∨ is_day (chars date) = true →
  is_zim_ext (chars ext) = true →
  parseZimFilename (base +:+ "_" +:+ date +:+ ext) = (base, Some date)
  ∧ parseZimFilename (base +:+ "_" +:+ date) = (base, Some date).
Proof.
  intros Hdate Hext.
  assert (Hparse : ∀ filename,
            strip_zim_ext filename = base +:+ "_" +:+ date →
            parseZimFilename filename = (base, Some date)).
  { intros filename Hstrip. unfold parseZimFilename. rewrite Hstrip.
    rewrite !chars_app. simpl chars at 2. simpl app at 2.
    rewrite match_date_app by done.
    rewrite length_app. simpl length.
    replace (length (chars base) + S (length (chars date))
             - (length (chars date) + 1))%nat
      with (length (chars base)) by lia.
    by rewrite take_app_length, !unchars_chars. }
  split; apply Hparse.
  - replace (base +:+ "_" +:+ date +:+ ext)
      with ((base +:+ "_" +:+ date) +:+ ext).
    + by apply strip_zim_ext_app.
    + rewrite <- (unchars_chars ((base +:+ "_" +:+ date) +:+ ext)).
      rewrite <- (unchars_chars (base +:+ "_" +:+ date +:+ ext)).
      f_equal. rewrite !chars_app. by rewrite <- !app_assoc.
  - by apply strip_zim_ext_dated.
Qed.

Lemma parseZimFilename_dated_witness :
  parseZimFilename "wikipedia_en_all_maxi_2024-01.zim"
    = ("wikipedia_en_all_maxi"%string, Some "2024-01"%string)
  ∧ parseZimFilename "wiki_1999-12_2024-01-15"
    = ("wiki_1999-12"%string, Some "2024-01-15"%string).
Proof.
  split.
  - by destruct (parseZimFilename_dated "wikipedia_en_all_maxi" "2024-01" ".zim"
                   (or_introl eq_refl) eq_refl) as [H _].
  - by destruct (parseZimFilename_dated "wiki_1999-12" "2024-01-15" ".ZIM"
                   (or_intror eq_refl) eq_refl) as [_ H].
Defined.

Lemma dated_tail_some (shape : list ascii → bool) (k : nat)
    (l date : list ascii) :
  (∀ x, shape x = true → length x = k) →
  dated_tail shape k l = Some date →
  l = take (length l - (length date + 1)) l ++ "_"%char :: date
  ∧ shape date = true.
Proof.
  intros Hshape. unfold dated_tail.
  destruct (bool_decide _ && _) eqn:Hc; [|done]. intros [= <-].
  apply andb_true_iff in Hc as [Htail%bool_decide_eq_true Hs].
  split; [|done]. rewrite (Hshape _ Hs), <- Htail.
  replace (k + 1)%nat with (S k) by lia. by rewrite take_last_chars.
Qed.

Lemma match_date_some (l date : list ascii) :
  match_date l = Some date →
  l = take (length l - (length date + 1)) l ++ "_"%char :: date
  ∧ (is_month date = true ∨ is_day date = true).
Proof.
  unfold match_date.
  destruct (dated_tail is_day 10 l) as [d|] eqn:Hday.
  - intros [= <-].
    apply dated_tail_some in Hday as [? ?]; [tauto|apply is_day_length].
  - intros Hmonth.
    apply dated_tail_some in Hmonth as [? ?]; [tauto|apply is_month_length].
Qed.

Lemma parseZimFilename_stem (filename : string) :
  match parseZimFilename filename with
  | (baseName, Some date) =>
      strip_zim_ext filename = baseName +:+ "_" +:+ date
      ∧ (is_month (chars date) = true ∨ is_day (chars date) = true)
  | (baseName, None) => baseName = strip_zim_ext filename
  end.
Proof.
  unfold parseZimFilename.
  destruct (match_date (chars (strip_zim_ext filename))) as [date|] eqn:Hm;
    [|done].
  apply match_date_some in Hm as [Heq Hshape].
  rewrite chars_unchars. split; [|done].
  rewrite <- (unchars_chars (strip_zim_ext filename)) at 1.
  rewrite Heq at 1. by rewrite unchars_app.
Qed.

(** X18. For every file name, [parseZimFilename] first removes a final
    [.zim] (in any letter case) and nothing else; if it returns a date, the
    rest of the name is the base name, [_] and that date, a date of the
    form [YYYY-MM] or [YYYY-MM-DD]; if it returns no date, the base name is
    the whole rest, and the rest does not end in [_] followed by such a
    date. *)
Theorem parseZimFilename_parts (filename : string) :
  (strip_zim_ext filename = filename
   ∨ ∃ ext, filename = strip_zim_ext filename +:+ ext
          ∧ is_zim_ext (chars ext) = true)
  ∧ match parseZimFilename filename with
    | (baseName, Some date) =>
        strip_zim_ext filename = baseName +:+ "_" +:+ date
        ∧ (is_month (chars date) = true ∨ is_day (chars date) = true)
    | (baseName, None) =>
        baseName = strip_zim_ext filename
        ∧ ∀ base date,
            is_month (chars date) = true ∨ is_day (chars date) = true →
            strip_zim_ext filename ≠ base +:+ "_" +:+ date
    end.
Proof.
  split.
  - unfold strip_zim_ext.
    destruct (is_zim_ext (last_chars 4 (chars filename))) eqn:Hext; [|by left].
    right. exists (unchars (last_chars 4 (chars filename))).
    rewrite chars_unchars. split; [|done].
    by rewrite <- unchars_app, take_last_chars, unchars_chars.
  - unfold parseZimFilename.
    destruct (match_date (chars (strip_zim_ext filename))) as [date|] eqn:Hm.
    + apply match_date_some in Hm as [Heq Hshape].
      rewrite chars_unchars. split; [|done].
      rewrite <- (unchars_chars (strip_zim_ext filename)) at 1.
      rewrite Heq at 1. by rewrite unchars_app.
    + split; [done|]. intros base date Hdate Heq.
      rewrite Heq in Hm. rewrite !chars_app in Hm. simpl in Hm.
      by rewrite match_date_app in Hm.
Qed.

Lemma parseZimFilename_parts_witness :
  parseZimFilename "gutenberg_en_all.zim" = ("gutenberg_en_all"%string, None)
  ∧ strip_zim_ext "gutenberg_en_all.zim" ≠ "gutenberg_en_all_2024-01"%string.
Proof.
  destruct (parseZimFilename_parts "gutenberg_en_all.zim") as [_ Hparts].
  destruct (parseZimFilename "gutenberg_en_all.zim") as [baseName [date|]] eqn:Hp.
  - vm_compute in Hp. discriminate.
  - destruct Hparts as [-> Hnone]. split.
    + reflexivity.
    + apply (Hnone "gutenberg_en_all"%string "2024-01"%string). by left.
Defined.

(** X19. [getZimFiles] lists nothing for a folder that does not exist, and
    otherwise a part of the directory listing; every file it lists is put
    together from what [parseZimFilename] returns for it: the base name,
    then [_] and the date when a date is returned (of the form [YYYY-MM]
    or [YYYY-MM-DD]), then an extension [.zim] in some letter case. So the
    base name is a prefix of the name at least four characters shorter. *)
Theorem getZimFiles_parsed (listing : list string) (file : string) :
  file ∈ getZimFiles (Some listing) →
  getZimFiles None = []
  ∧ file ∈ listing
  ∧ ∃ ext,
      is_zim_ext (chars ext) = true
      ∧ match parseZimFilename file with
        | (baseName, Some date) =>
            file = baseName +:+ "_" +:+ date +:+ ext
            ∧ (is_month (chars date) = true ∨ is_day (chars date) = true)
        | (baseName, None) => file = baseName +:+ ext
        end
      ∧ (length (chars (parseZimFilename file).1) + 4 ≤ length (chars file))%nat.
Proof.
  unfold getZimFiles. intros Hin.
  apply list_elem_of_In, filter_In in Hin as [Hin Hzim].
  split; [done|]. split; [by apply list_elem_of_In|].
  unfold is_zim_file in Hzim.
  assert (Hfile : file = strip_zim_ext file
                         +:+ unchars (last_chars 4 (chars file))).
  { unfold strip_zim_ext. rewrite Hzim.
    by rewrite <- unchars_app, take_last_chars, unchars_chars. }
  pose proof (parseZimFilename_stem file) as Hparts.
  exists (unchars (last_chars 4 (chars file))). rewrite chars_unchars.
  split; [done|].
  destruct (parseZimFilename file) as [baseName [date|]]; simpl.
  - destruct Hparts as [Hstem Hshape]. split_and!; [|done|].
    + rewrite Hfile at 1. rewrite Hstem.
      rewrite <- (unchars_chars ((baseName +:+ "_" +:+ date) +:+ _)).
      rewrite <- (unchars_chars (baseName +:+ "_" +:+ date +:+ _)).
      f_equal. rewrite !chars_app. by rewrite <- !app_assoc.
    + rewrite Hfile at 1. rewrite Hstem, !chars_app, !length_app.
      rewrite chars_unchars, (is_zim_ext_length _ Hzim). lia.
  - subst baseName. split; [done|].
    rewrite Hfile at 2. rewrite chars_app, length_app.
    rewrite chars_unchars, (is_zim_ext_length _ Hzim). lia.
Qed.

Lemma getZimFiles_parsed_witness :
  "wiki_2024-01.ZIM"%string ∈ ["notes.txt"; "wiki_2024-01.ZIM"]%string
  ∧ ∃ ext,
      is_zim_ext (chars ext) = true
      ∧ "wiki_2024-01.ZIM"%string = ("wiki" +:+ "_" +:+ "2024-01" +:+ ext)%string.
Proof.
  destruct (getZimFiles_parsed ["notes.txt"; "wiki_2024-01.ZIM"]%string
              "wiki_2024-01.ZIM"%string)
    as (_ & Hin & ext & Hext & Hparts & _).
  - apply list_elem_of_here.
  - split; [exact Hin|]. exists ext. split; [exact Hext|].
    change (parseZimFilename "wiki_2024-01.ZIM")
      with ("wiki"%string, Some "2024-01"%string) in Hparts.
    by destruct Hparts as [Heq _].
Defined.

(** ** Starting twice *)

(** X20. A second start of the same book, right after a start that
    returned and under the same environment, is refused with the
    already-in-progress error and changes nothing: there is still one
    process for the book and the store is the same. *)
Theorem start_twice (E : Env) (bookId : string) (w w' : World) (d : Download) :
  startDownload E bookId w = (w', Ok d) →
  startDownload E bookId w'
    = (w', Throw ("Download already in progress for: " +:+ bookId))
  ∧ length (spawned w') = S (length (spawned w)).
Proof.
  intros Hrun.
  destruct (startDownload_ok_find E bookId w w' d Hrun)
    as (r & Hfind & _ & _ & Hst & _).
  destruct (startDownload_cases E bookId w)
    as [[m Hm] | (book & doc & url & Hpre & Hcases)].
  { rewrite Hm in Hrun. discriminate. }
  split.
  - by apply (startDownload_in_progress E bookId book doc url w' r).
  - destruct Hcases as [(e & d0 & _ & _ & _ & Hm) | [_ Hm]];
      rewrite Hm in Hrun; injection Hrun as <- _;
      match goal with
      | |- context [started ?E ?b ?dc ?u ?dd ?ww] =>
          destruct (started_process E b dc u dd ww) as (-> & _)
      end;
      rewrite length_app; simpl; lia.
Qed.

Lemma start_twice_witness :
  ∃ w' d,
    startDownload (Scenario.env 3000000000) "wiki" Scenario.empty = (w', Ok d)
    ∧ startDownload (Scenario.env 3000000000) "wiki" w'
      = (w', Throw "Download already in progress for: wiki").
Proof.
  destruct (startDownload (Scenario.env 3000000000) "wiki" Scenario.empty)
    as [w' [d|msg]] eqn:Hrun.
  - destruct (start_twice _ _ _ _ _ Hrun) as [Hagain _].
    exists w', d. split; [reflexivity | exact Hagain].
  - vm_compute in Hrun. discriminate.
Defined.
